(** * square-web-types: the declared surface of the Web Payments SDK

    The repository holds TypeScript declaration files only: interfaces, type
    aliases, [declare enum]s and [declare class]es, each with its JSDoc
    comment.  This development embeds

    - the declarations themselves, as a table of syntax ([Surface]), one
      entry per declaration of the source, with parameter types, return
      types and [@throws] tags as the source writes them, and the functions
      that read the table;
    - the structural typing of plain JavaScript data against that table
      ([Typing]);
    - the data shapes the payment request API exchanges, as records
      ([Shapes]);
    - the behaviour the JSDoc comments document for the closed runtime
      behind the declarations ([Contract]).  The runtime is not part of the
      repository; every definition of that part says so. *)

Set Warnings "-register-all".
From Stdlib Require Import String Ascii List Bool ZArith Lia.
Import ListNotations.
Open Scope string_scope.

(* ================================================================== *)
(** * The declaration syntax *)
(* ================================================================== *)

Module Surface.

(** Type expressions as the declaration files write them. *)
Inductive Ty : Type :=
| TString
| TNumber
| TBoolean
| TVoid
| TNull
| TAny
| TLiteral (text : string)                       (* 'CHARGE' *)
| TRef (name : string)                           (* CardOptions *)
| TApp (name : string) (args : list Ty)          (* Promise<TokenResult> *)
| TArray (elem : Ty)                             (* LineItem[] *)
| TUnion (alts : list Ty)                        (* string | HTMLElement *)
| TTemplate (enum : string)                      (* `${CurrencyCode}` *)
| TFunction (params : list (string * Ty)) (ret : Ty)
| TObject (fields : list (string * Ty)).         (* { cashtag: string; ... } *)

Definition TPromise (t : Ty) : Ty := TApp "Promise" [t].
Definition TPartial (t : Ty) : Ty := TApp "Partial" [t].

Record Param := mkParam {
  p_name : string;
  p_optional : bool;
  p_type : Ty
}.

(** One [@throws] tag: the exception it names and the sentence after it. *)
Record Throws := mkThrows {
  exn : string;
  reason : string
}.

(** Members of an interface or of a class.  [m_body] says whether the member
    carries an implementation; a signature has none. *)
Inductive Member : Type :=
| Property (name : string) (optional readonly : bool) (type : Ty)
| Method (name : string) (params : list Param) (returns : Ty)
         (throws : list Throws) (m_body : bool)
| CallSignature (params : list Param) (returns : Ty)
| Constructor (params : list Param) (m_body : bool).

(** Top-level declarations.  [ambient] is the [declare] modifier: an
    ambient enum, class, function or variable describes a value that exists
    elsewhere and emits no code. *)
Inductive Decl : Type :=
| Interface (name : string) (extends : list string) (members : list Member)
| TypeAlias (name : string) (body : Ty)
| Enum (ambient : bool) (name : string) (values : list (string * string))
| Class (ambient : bool) (name : string) (tparams : list string)
        (extends : option string) (members : list Member)
| FunctionDecl (ambient : bool) (name : string) (params : list Param)
               (returns : Ty)
| VariableDecl (ambient : bool) (name : string) (type : Ty).

Record ImportDecl := mkImport {
  imported : list string;
  from : string
}.

(** A module of the source: one file, or one part of a file that holds
    several modules. *)
Record SourceModule := mkModule {
  path : string;
  imports : list ImportDecl;
  decls : list Decl;
  exports : list string
}.

Definition decl_name (d : Decl) : string :=
  match d with
  | Interface n _ _ | TypeAlias n _ | Enum _ n _
  | Class _ n _ _ _ | FunctionDecl _ n _ _ | VariableDecl _ n _ => n
  end.

Definition opt (name : string) (t : Ty) : Member := Property name true false t.
Definition req (name : string) (t : Ty) : Member := Property name false false t.
Definition ro (name : string) (t : Ty) : Member := Property name false true t.
Definition sig (name : string) (params : list Param) (returns : Ty)
  (throws : list Throws) : Member := Method name params returns throws false.
Definition arg (name : string) (t : Ty) : Param := mkParam name false t.
Definition arg_opt (name : string) (t : Ty) : Param := mkParam name true t.

(** ** The payment method interfaces *)

Definition selectorOrElement : Param :=
  arg "selectorOrElement" (TUnion [TString; TRef "HTMLElement"]).

(** payment-method/payment-method-types.d.ts, [PaymentMethod]. *)
Definition PaymentMethod : Decl :=
  Interface "PaymentMethod" []
    [ sig "addEventListener"
        [arg "type" TString; arg "listener" (TRef "SqEventListener")] TVoid [];
      sig "removeEventListener"
        [arg "type" TString; arg "listener" (TRef "SqEventListener")] TVoid [];
      sig "destroy" [] (TPromise (TUnion [TBoolean; TVoid])) [] ].

Definition cardInputCallback : Param :=
  arg "callback"
    (TFunction [("event", TApp "SqEvent" [TRef "CardInputEvent"])] TVoid).

(** The module of [Card] (cards/method.d.ts in the package). *)
Definition Card : Decl :=
  Interface "Card" ["PaymentMethod"]
    [ sig "configure" [arg "options" (TRef "CardOptions")] (TPromise TVoid)
        [ mkThrows "PaymentMethodNotAttachedError"
            "`Card` is not attached to a DOM element yet.";
          mkThrows "UnexpectedError" "An unexpected SDK error has occurred" ];
      sig "destroy" [] (TPromise TBoolean) [];
      sig "attach" [selectorOrElement] (TPromise TVoid)
        [ mkThrows "PaymentMethodAlreadyAttachedError"
            "`Card` is already attached to a DOM element";
          mkThrows "UnexpectedError" "An unexpected SDK error has occurred" ];
      sig "recalculateSize" [] TVoid
        [ mkThrows "PaymentMethodNotAttachedError"
            "`Card` is has not been attached to a DOM element" ];
      sig "focus" [arg "field" (TRef "CardFieldNamesValues")]
        (TPromise TBoolean)
        [ mkThrows "InvalidFieldNameError"
            "the specified field name is invalid" ];
      sig "addEventListener"
        [arg "eventType" (TRef "CardInputEventTypesValues"); cardInputCallback]
        TVoid [];
      sig "removeEventListener"
        [arg "eventType" (TRef "CardInputEventTypesValues"); cardInputCallback]
        TVoid [];
      sig "tokenize" [] (TPromise (TRef "TokenResult"))
        [ mkThrows "TokenizationError" "if tokenization fails";
          mkThrows "PaymentMethodNotAttachedError"
            "`Card` is not attached to a DOM element yet.";
          mkThrows "TokenizationError"
            "Tokenization of the payment card failed." ] ].

Definition giftCardInputCallback : Param :=
  arg "callback"
    (TFunction [("event", TApp "SqEvent" [TRef "GiftCardInputEvent"])] TVoid).

(** payment-method/gift-card/method.d.ts *)
Definition GiftCard : Decl :=
  Interface "GiftCard" ["PaymentMethod"]
    [ sig "attach" [selectorOrElement] (TPromise TVoid)
        [ mkThrows "PaymentMethodAlreadyAttachedError"
            "`GiftCard` is already attached to a DOM element";
          mkThrows "UnexpectedError" "An internal SDK error has occurred" ];
      sig "configure" [arg "options" (TRef "GiftCardOptions")] (TPromise TVoid)
        [ mkThrows "PaymentMethodNotAttachedError"
            "`GiftCard` has not been attached to a DOM element yet";
          mkThrows "UnexpectedError" "An internal SDK error has occurred." ];
      sig "destroy" [] (TPromise TBoolean) [];
      sig "focus" [arg "field" (TRef "GiftCardFieldNamesValues")]
        (TPromise TBoolean) [];
      sig "addEventListener"
        [ arg "eventType" (TRef "GiftCardInputEventTypesValues");
          giftCardInputCallback ] TVoid [];
      sig "removeEventListener"
        [ arg "eventType" (TRef "GiftCardInputEventTypesValues");
          giftCardInputCallback ] TVoid [];
      sig "tokenize" [] (TPromise (TRef "TokenResult"))
        [ mkThrows "TokenizationError" "if tokenization fails";
          mkThrows "PaymentMethodNotAttachedError"
            "`GiftCard` has not been attached to a DOM element yet.";
          mkThrows "TokenizationError" "The giftCard could not be tokenized." ] ].

Definition plaidCallback : Param :=
  arg "callback" (TFunction [("event", TRef "SqEvent")] TVoid).

(** payment-method/ach/method.d.ts *)
Definition ACH : Decl :=
  Interface "ACH" ["PaymentMethod"]
    [ sig "tokenize" [arg "options" (TRef "AchTokenOptions")]
        (TPromise (TRef "TokenResult"))
        [ mkThrows "PlaidUninitializedError"
            "The plaid handler was not initialized correctly";
          mkThrows "PlaidMissingNameError"
            "`{ accountHolderName: string }` is a required parameter";
          mkThrows "TokenizationError"
            "The bank transfer request could not be tokenized" ];
      sig "destroy" [] (TPromise TVoid) [];
      sig "addEventListener" [arg "eventType" TString; plaidCallback] TVoid [];
      sig "removeEventListener" [arg "eventType" TString; plaidCallback]
        TVoid [] ].

(** payment-method/apple-pay/method.d.ts *)
Definition ApplePay : Decl :=
  Interface "ApplePay" ["PaymentMethod"]
    [ sig "tokenize" [] (TPromise (TRef "TokenResult"))
        [ mkThrows "UnexpectedError"
            "ApplePay failed to initialize for unknown reasons.";
          mkThrows "TokenizationError"
            "The payment request could not be tokenized." ];
      sig "destroy" [] (TPromise TVoid) [] ].

(** The module of [ERCPay], a button-based wallet method. *)
Definition ERCPay : Decl :=
  Interface "ERCPay" ["PaymentMethod"]
    [ sig "attach"
        [ selectorOrElement;
          arg_opt "ercPayButtonOptions" (TRef "ERCPayButtonOptions") ]
        (TPromise TVoid)
        [ mkThrows "PaymentMethodUnsupportedError"
            "ERC Pay is not available due to misconfiguration or non-support on this device or browser" ];
      sig "destroy" [] (TPromise TVoid) [];
      sig "tokenize" [] (TPromise (TRef "TokenResult"))
        [ mkThrows "UnexpectedError"
            "Tokenization failed because of an internal error" ] ].

(** ** Payment requests and the [Payments] entry points *)

(** The module of [PaymentRequest] (payment-request.d.ts in the package). *)
Definition PaymentRequest : Decl :=
  Interface "PaymentRequest" []
    [ sig "addEventListener"
        [ arg "event" (TRef "PaymentRequestEventValue");
          arg "callback" (TRef "PaymentRequestCallback") ] TVoid [];
      sig "update" [arg "options" (TPartial (TRef "PaymentRequestOptions"))]
        TBoolean
        [ mkThrows "InvalidPaymentRequestError" "" ] ].

(** payments.d.ts *)
Definition SetLocaleResult : Decl :=
  Interface "SetLocaleResult" []
    [ req "previousLocale" TString;
      req "newLocale" TString;
      opt "message" TString ].

Definition Payments : Decl :=
  Interface "Payments" []
    [ sig "verifyBuyer"
        [ arg "source" TString;
          arg "details" (TUnion [ TRef "ChargeVerifyBuyerDetails";
                                  TRef "StoreVerifyBuyerDetails" ]) ]
        (TPromise (TUnion [TRef "VerifyBuyerResponseDetails"; TNull]))
        [ mkThrows "VerifyBuyerError"
            "Something went wrong trying to verify the buyer" ];
      sig "paymentRequest" [arg "options" (TRef "PaymentRequestOptions")]
        (TRef "PaymentRequest") [];
      sig "setLocale" [arg "locale" TString]
        (TPromise (TRef "SetLocaleResult"))
        [ mkThrows "UnexpectedError"
            "if the payment context cannot initialize or the locale cannot be set" ];
      sig "card" [arg_opt "options" (TRef "CardOptions")]
        (TPromise (TRef "Card"))
        [ mkThrows "UnexpectedError"
            "if the payment context cannot initialize" ];
      sig "googlePay" [arg "paymentRequest" (TRef "PaymentRequest")]
        (TPromise (TRef "GooglePay"))
        [ mkThrows "InvalidPaymentRequestError"
            "the provided payment request was invalid";
          mkThrows "UnexpectedError"
            "if the payment context cannot initialize";
          mkThrows "ScriptLoaderError"
            "if the Google Pay script cannot be loaded" ];
      sig "applePay" [arg "paymentRequest" (TRef "PaymentRequest")]
        (TPromise (TRef "ApplePay"))
        [ mkThrows "InvalidPaymentRequestError"
            "the provided payment request was invalid";
          mkThrows "UnexpectedError"
            "if the payment context cannot initialize" ];
      sig "ach" [] (TPromise (TRef "ACH"))
        [ mkThrows "UnexpectedError"
            "if the payment context cannot initialize";
          mkThrows "ScriptLoaderError"
            "if the Plaid script cannot be loaded" ];
      sig "giftCard" [arg_opt "options" (TRef "GiftCardOptions")]
        (TPromise (TRef "GiftCard"))
        [ mkThrows "UnexpectedError"
            "if the payment context cannot initialize" ];
      sig "cashApp" [arg "options" (TRef "DigitalWalletOptions")]
        (TPromise (TRef "CashApp")) [] ].

(** ** Options, enums and error classes of the button-based wallet *)

Definition SushiPayButtonOptions : Decl :=
  Interface "SushiPayButtonOptions" []
    [ opt "buttonColor" (TRef "SushiPayButtonColorValues");
      opt "buttonSizeMode" (TRef "SushiPayButtonSizeModeValues");
      opt "buttonType" (TRef "SushiPayButtonTypeValues") ].

Definition SushiPayButtonColor : Decl :=
  Enum true "SushiPayButtonColor"
    [("DEFAULT", "default"); ("BLACK", "black"); ("WHITE", "white")].
Definition SushiPayButtonColorValues : Decl :=
  TypeAlias "SushiPayButtonColorValues" (TTemplate "SushiPayButtonColor").
Definition SushiPayButtonSizeMode : Decl :=
  Enum true "SushiPayButtonSizeMode" [("STATIC", "static"); ("FILL", "fill")].
Definition SushiPayButtonSizeModeValues : Decl :=
  TypeAlias "SushiPayButtonSizeModeValues" (TTemplate "SushiPayButtonSizeMode").
Definition SushiPayButtonType : Decl :=
  Enum true "SushiPayButtonType" [("LONG", "long"); ("SHORT", "short")].
Definition SushiPayButtonTypeValues : Decl :=
  TypeAlias "SushiPayButtonTypeValues" (TTemplate "SushiPayButtonType").
Definition SushiPayAddressErrorReason : Decl :=
  Enum true "SushiPayAddressErrorReason"
    [ ("PAYMENT_METHOD_DESTROYED", "PAYMENT_METHOD_DESTROYED");
      ("SHIPPING_ADDRESS_UNSERVICEABLE", "SHIPPING_ADDRESS_UNSERVICEABLE");
      ("SHIPPING_ADDRESS_INVALID", "SHIPPING_ADDRESS_INVALID") ].

Definition InvalidFieldNameError : Decl :=
  Class true "InvalidFieldNameError" [] (Some "SqError")
    [ Constructor [arg "name" TString] false ].
Definition InvalidConfigurationPropertyError : Decl :=
  Class true "InvalidConfigurationPropertyError" [] (Some "SqError")
    [ Constructor [arg "property" TString] false ].
Definition InvalidConfigurationValueError : Decl :=
  Class true "InvalidConfigurationValueError" [] (Some "SqError")
    [ Constructor [arg "property" TString; arg "value" TString] false ].

(** errors/script.d.ts *)
Definition ScriptLoaderError : Decl :=
  Class true "ScriptLoaderError" [] (Some "SqError")
    [ Constructor [arg "windowProperty" TString; arg "scriptSource" TString]
        false ].

(** ** Buyer verification, contacts and money *)

Definition BaseVerifyBuyerDetails : Decl :=
  Interface "BaseVerifyBuyerDetails" []
    [ ro "billingContact" (TRef "BillingContact") ].
Definition ChargeVerifyBuyerDetails : Decl :=
  Interface "ChargeVerifyBuyerDetails" ["BaseVerifyBuyerDetails"]
    [ ro "currencyCode" TString;
      ro "amount" TString;
      ro "intent" (TLiteral "CHARGE") ].
Definition StoreVerifyBuyerDetails : Decl :=
  Interface "StoreVerifyBuyerDetails" ["BaseVerifyBuyerDetails"]
    [ ro "intent" (TLiteral "STORE") ].
Definition VerifyBuyerResponseDetails : Decl :=
  Interface "VerifyBuyerResponseDetails" []
    [ req "userChallenged" TBoolean; req "token" TString ].

Definition Contact : Decl :=
  Interface "Contact" []
    [ opt "givenName" TString;
      opt "familyName" TString;
      opt "addressLines" (TArray TString);
      opt "city" TString;
      opt "state" TString;
      opt "postalCode" TString;
      opt "countryCode" TString ].
Definition BillingContact : Decl := TypeAlias "BillingContact" (TRef "Contact").
Definition ShippingContact : Decl :=
  Interface "ShippingContact" ["Contact"]
    [ opt "email" TString; opt "phone" TString ].

(** money.d.ts *)
Definition CurrencyCode : Decl :=
  Enum true "CurrencyCode" [("GBP", "GBP"); ("USD", "USD")].
Definition CurrencyCodeValue : Decl :=
  TypeAlias "CurrencyCodeValue" (TTemplate "CurrencyCode").
Definition Money : Decl :=
  Interface "Money" []
    [ req "amount" TNumber; req "currencyCode" (TRef "CurrencyCodeValue") ].

(** The ACH types module (ach/types.d.ts in the package). *)
Definition AchBankAccountDetails : Decl :=
  Interface "AchBankAccountDetails" []
    [ req "accountNumberSuffix" TString;
      req "accountType" TString;
      req "bankName" TString ].
Definition PlaidEventName : Decl :=
  Enum true "PlaidEventName"
    [ ("CLOSE_OAUTH", "CLOSE_OAUTH"); ("ERROR", "ERROR"); ("EXIT", "EXIT");
      ("FAIL_OAUTH", "FAIL_OAUTH"); ("HANDOFF", "HANDOFF");
      ("MATCHED_SELECT_INSTITUTION", "MATCHED_SELECT_INSTITUTION");
      ("MATCHED_SELECT_VERIFY_METHOD", "MATCHED_SELECT_VERIFY_METHOD");
      ("OPEN", "OPEN"); ("OPEN_MY_PLAID", "OPEN_MY_PLAID");
      ("OPEN_OAUTH", "OPEN_OAUTH");
      ("SEARCH_INSTITUTION", "SEARCH_INSTITUTION");
      ("SELECT_BRAND", "SELECT_BRAND");
      ("SELECT_INSTITUTION", "SELECT_INSTITUTION");
      ("SUBMIT_CREDENTIALS", "SUBMIT_CREDENTIALS");
      ("SUBMIT_MFA", "SUBMIT_MFA"); ("TRANSITION_VIEW", "TRANSITION_VIEW") ].

(** ** payment-method/payment-method-types.d.ts *)

Definition MethodType : Decl :=
  Enum true "MethodType"
    [ ("APPLE_PAY", "Apple Pay"); ("CARD", "Card"); ("SUSHI_PAY", "Sushi Pay");
      ("CASH_APP", "Cash App"); ("GOOGLE_PAY", "Google Pay");
      ("GIFT_CARD", "Gift Card"); ("ACH", "ACH") ].

Definition ShippingOption : Decl :=
  Interface "ShippingOption" []
    [ req "id" TString; req "label" TString; req "amount" TString ].

Definition LineItem : Decl :=
  Interface "LineItem" []
    [ req "amount" TString;
      opt "id" TString;
      opt "imageUrl" TString;
      req "label" TString;
      opt "pending" TBoolean;
      opt "productUrl" TString ].

Definition PaymentRequestOptions : Decl :=
  Interface "PaymentRequestOptions" []
    [ req "countryCode" TString;
      req "currencyCode" (TRef "CurrencyCodeValue");
      opt "discounts" (TArray (TRef "LineItem"));
      opt "lineItems" (TArray (TRef "LineItem"));
      opt "requestBillingContact" TBoolean;
      opt "requestShippingContact" TBoolean;
      opt "shippingContact" (TRef "ShippingContact");
      opt "shippingLineItems" (TArray (TRef "LineItem"));
      opt "shippingOptions" (TArray (TRef "ShippingOption"));
      opt "taxLineItems" (TArray (TRef "LineItem"));
      req "total" (TRef "LineItem") ].

Definition PaymentRequestEvent : Decl :=
  Enum true "PaymentRequestEvent"
    [ ("SHIPPING_CONTACT_CHANGED", "shippingcontactchanged");
      ("SHIPPING_OPTION_CHANGED", "shippingoptionchanged") ].
Definition PaymentRequestEventValue : Decl :=
  TypeAlias "PaymentRequestEventValue" (TTemplate "PaymentRequestEvent").

Definition ShippingErrors : Decl :=
  Interface "ShippingErrors" []
    [ opt "addressLines" TString;
      opt "city" TString;
      opt "state" TString;
      opt "postalCode" TString;
      opt "country" TString ].

Definition PaymentRequestUpdate : Decl :=
  Interface "PaymentRequestUpdate" []
    [ opt "error" TString;
      opt "shippingErrors" (TRef "ShippingErrors");
      opt "lineItems" (TArray (TRef "LineItem"));
      opt "total" (TRef "LineItem");
      opt "shippingOptions" (TArray (TRef "ShippingOption"));
      opt "taxLineItems" (TArray (TRef "LineItem"));
      opt "shippingLineItems" (TArray (TRef "LineItem"));
      opt "discounts" (TArray (TRef "LineItem")) ].

Definition updateOrPromise : Ty :=
  TUnion [TRef "PaymentRequestUpdate"; TPromise (TRef "PaymentRequestUpdate")].
Definition PaymentRequestUpdater : Decl :=
  TypeAlias "PaymentRequestUpdater"
    (TFunction [("update", TRef "PaymentRequestUpdate")] TVoid).
Definition ShippingContactCallback : Decl :=
  TypeAlias "ShippingContactCallback"
    (TFunction [("contact", TRef "ShippingContact")] updateOrPromise).
Definition ShippingOptionCallback : Decl :=
  TypeAlias "ShippingOptionCallback"
    (TFunction [("option", TRef "ShippingOption")] updateOrPromise).
Definition PaymentRequestCallback : Decl :=
  TypeAlias "PaymentRequestCallback"
    (TUnion [TRef "ShippingContactCallback"; TRef "ShippingOptionCallback"]).

Definition SqEvent : Decl :=
  Class true "SqEvent" ["T"] None
    [ ro "type" TString;
      ro "detail" (TRef "T");
      Constructor [arg "type" TString; arg "detail" (TRef "T")] false ].
Definition SqEventListener : Decl :=
  Interface "SqEventListener" []
    [ CallSignature [arg "event" (TRef "SqEvent")] TVoid ].

Definition TokenStatus : Decl :=
  Enum true "TokenStatus"
    [ ("UNKNOWN", "Unknown"); ("OK", "OK"); ("ERROR", "Error");
      ("INVALID", "Invalid"); ("ABORT", "Abort"); ("CANCEL", "Cancel") ].

Definition TokenErrorDetails : Decl :=
  Interface "TokenErrorDetails" []
    [ req "type" TString; req "message" TString; opt "field" TString ].

Definition ShippingDetails : Decl :=
  Interface "ShippingDetails" []
    [ opt "contact" (TRef "ShippingContact");
      opt "option" (TRef "ShippingOption") ].

Definition TokenDetails : Decl :=
  Interface "TokenDetails" []
    [ opt "bankAccount" (TRef "AchBankAccountDetails");
      opt "card" (TRef "CardDetails");
      opt "giftCard" (TRef "GiftCardDetails");
      opt "cashApp"
        (TObject [("cashtag", TString); ("transactionId", TString)]);
      req "method" (TRef "MethodType");
      opt "shipping" (TRef "ShippingDetails");
      opt "billing" (TRef "BillingContact") ].

Definition AchTokenOptions : Decl :=
  Interface "AchTokenOptions" [] [ req "accountHolderName" TString ].
Definition CardTokenOptions : Decl :=
  Interface "CardTokenOptions" [] [ req "billing" (TRef "BillingContact") ].
Definition TokenError : Decl :=
  TypeAlias "TokenError" (TUnion [TRef "TokenErrorDetails"; TRef "Error"]).

Definition TokenResult : Decl :=
  Interface "TokenResult" []
    [ req "status" (TRef "TokenStatus");
      opt "errors" (TArray (TRef "TokenError"));
      opt "token" TString;
      opt "details" (TRef "TokenDetails") ].

(** ** The modules of the source *)

Definition sushi_pay_types : SourceModule :=
  mkModule "src/unnamed/part_000 (1)"
    [ mkImport [ "SushiPayButtonColorValues"; "SushiPayButtonSizeModeValues";
                 "SushiPayButtonTypeValues" ] "./enum" ]
    [ SushiPayButtonOptions ]
    [ "SushiPayButtonOptions" ].

Definition erc_pay_method : SourceModule :=
  mkModule "src/unnamed/part_000 (2)"
    [ mkImport ["PaymentMethod"; "TokenResult"] "../payment-method-types";
      mkImport ["ERCPayButtonOptions"] "./types" ]
    [ ERCPay ]
    [ "ERCPay" ].

Definition sushi_pay_enum : SourceModule :=
  mkModule "src/unnamed/part_001" []
    [ SushiPayButtonColor; SushiPayButtonColorValues;
      SushiPayButtonSizeMode; SushiPayButtonSizeModeValues;
      SushiPayButtonType; SushiPayButtonTypeValues;
      SushiPayAddressErrorReason ]
    [ "SushiPayButtonColor"; "SushiPayButtonColorValues";
      "SushiPayButtonSizeMode"; "SushiPayButtonSizeModeValues";
      "SushiPayButtonType"; "SushiPayButtonTypeValues";
      "SushiPayAddressErrorReason" ].

Definition cards_method : SourceModule :=
  mkModule "src/unnamed/part_002"
    [ mkImport ["PaymentMethod"; "SqEvent"; "TokenResult"]
        "../payment-method-types";
      mkImport ["CardFieldNamesValues"; "CardInputEventTypesValues"] "./enum";
      mkImport ["CardInputEvent"; "CardOptions"] "./types" ]
    [ Card ]
    [ "Card" ].

Definition payment_request : SourceModule :=
  mkModule "src/unnamed/part_003"
    [ mkImport [ "PaymentRequestCallback"; "PaymentRequestEventValue";
                 "PaymentRequestOptions" ] "./payment-method" ]
    [ PaymentRequest ]
    [ "PaymentRequest" ].

Definition errors_field : SourceModule :=
  mkModule "src/unnamed/part_004"
    [ mkImport ["SqError"] "./types" ]
    [ InvalidFieldNameError; InvalidConfigurationPropertyError;
      InvalidConfigurationValueError ]
    [ "InvalidFieldNameError"; "InvalidConfigurationPropertyError";
      "InvalidConfigurationValueError" ].

Definition payments : SourceModule :=
  mkModule "src/web-payments-sdk-types/dist/types/payments.d.ts (1)"
    [ mkImport ["CashApp"; "DigitalWalletOptions"; "PaymentRequestOptions"]
        "./payment-method";
      mkImport ["ACH"] "./payment-method/ach/method";
      mkImport ["ApplePay"] "./payment-method/apple-pay/method";
      mkImport ["Card"] "./payment-method/cards/method";
      mkImport ["CardOptions"] "./payment-method/cards/types";
      mkImport ["GiftCardOptions"] "./payment-method/gift-card";
      mkImport ["GiftCard"] "./payment-method/gift-card/method";
      mkImport ["GooglePay"] "./payment-method/google-pay/method";
      mkImport ["PaymentRequest"] "./payment-request";
      mkImport [ "ChargeVerifyBuyerDetails"; "StoreVerifyBuyerDetails";
                 "VerifyBuyerResponseDetails" ] "./verify-buyer" ]
    [ SetLocaleResult; Payments ]
    [ "SetLocaleResult"; "Payments" ].

Definition verify_buyer : SourceModule :=
  mkModule "src/web-payments-sdk-types/dist/types/payments.d.ts (2)"
    [ mkImport ["BillingContact"] "./contact" ]
    [ BaseVerifyBuyerDetails; ChargeVerifyBuyerDetails;
      StoreVerifyBuyerDetails; VerifyBuyerResponseDetails ]
    [ "ChargeVerifyBuyerDetails"; "StoreVerifyBuyerDetails";
      "VerifyBuyerResponseDetails" ].

Definition contact : SourceModule :=
  mkModule "src/web-payments-sdk-types/dist/types/payments.d.ts (3)" []
    [ Contact; BillingContact; ShippingContact ]
    [ "BillingContact"; "ShippingContact" ].

Definition money : SourceModule :=
  mkModule "src/web-payments-sdk-types/dist/types/money.d.ts" []
    [ CurrencyCode; CurrencyCodeValue; Money ]
    [ "CurrencyCode"; "CurrencyCodeValue"; "Money" ].

Definition errors_script : SourceModule :=
  mkModule "src/web-payments-sdk-types/dist/errors/script.d.ts"
    [ mkImport ["SqError"] "./types" ]
    [ ScriptLoaderError ]
    [ "ScriptLoaderError" ].

Definition gift_card_method : SourceModule :=
  mkModule
    "src/web-payments-sdk-types/dist/types/payment-method/gift-card/method.d.ts"
    [ mkImport ["PaymentMethod"; "SqEvent"; "TokenResult"]
        "../payment-method-types";
      mkImport ["GiftCardFieldNamesValues"; "GiftCardInputEventTypesValues"]
        "./enum";
      mkImport ["GiftCardInputEvent"; "GiftCardOptions"] "./types" ]
    [ GiftCard ]
    [ "GiftCard" ].

Definition ach_method : SourceModule :=
  mkModule
    "src/web-payments-sdk-types/dist/types/payment-method/ach/method.d.ts"
    [ mkImport ["AchTokenOptions"; "PaymentMethod"; "SqEvent"; "TokenResult"]
        "../payment-method-types" ]
    [ ACH ]
    [ "ACH" ].

Definition apple_pay_method : SourceModule :=
  mkModule
    "src/web-payments-sdk-types/dist/types/payment-method/apple-pay/method.d.ts (1)"
    [ mkImport ["PaymentMethod"; "TokenResult"] "../payment-method-types" ]
    [ ApplePay ]
    [ "ApplePay" ].

Definition ach_types : SourceModule :=
  mkModule
    "src/web-payments-sdk-types/dist/types/payment-method/apple-pay/method.d.ts (2)"
    []
    [ AchBankAccountDetails; PlaidEventName ]
    [ "AchBankAccountDetails"; "PlaidEventName" ].

Definition payment_method_types : SourceModule :=
  mkModule
    "src/web-payments-sdk-types/dist/types/payment-method/payment-method-types.d.ts"
    [ mkImport ["BillingContact"; "ShippingContact"] "../contact";
      mkImport ["CurrencyCodeValue"] "../money";
      mkImport ["AchBankAccountDetails"] "./ach/types";
      mkImport ["CardDetails"] "./cards/types";
      mkImport ["GiftCardDetails"] "./gift-card/types" ]
    [ MethodType; ShippingOption; LineItem; PaymentRequestOptions;
      PaymentRequestEvent; PaymentRequestEventValue; ShippingErrors;
      PaymentRequestUpdate; PaymentRequestUpdater; ShippingContactCallback;
      ShippingOptionCallback; PaymentRequestCallback; SqEvent;
      SqEventListener; TokenStatus; TokenErrorDetails; ShippingDetails;
      TokenDetails; AchTokenOptions; CardTokenOptions; TokenError;
      TokenResult; PaymentMethod ]
    [ "LineItem"; "MethodType"; "PaymentMethod"; "PaymentRequestCallback";
      "PaymentRequestEvent"; "PaymentRequestEventValue";
      "PaymentRequestOptions"; "PaymentRequestUpdater";
      "PaymentRequestUpdate"; "ShippingContactCallback"; "ShippingErrors";
      "ShippingOptionCallback"; "ShippingOption"; "SqEvent";
      "SqEventListener"; "TokenResult"; "TokenError"; "CardTokenOptions";
      "AchTokenOptions"; "TokenDetails"; "ShippingDetails"; "TokenStatus" ].

Definition source_modules : list SourceModule :=
  [ sushi_pay_types; erc_pay_method; sushi_pay_enum; cards_method;
    payment_request; errors_field; payments; verify_buyer; contact; money;
    errors_script; gift_card_method; ach_method; apple_pay_method; ach_types;
    payment_method_types ].

Definition declarations : list Decl := flat_map decls source_modules.

(** ** Reading the table *)

Definition find_decl (name : string) : option Decl :=
  find (fun d => decl_name d =? name) declarations.

(** No name is declared twice. *)
Fixpoint distinct (names : list string) : bool :=
  match names with
  | [] => true
  | n :: rest => negb (existsb (String.eqb n) rest) && distinct rest
  end.

Definition own_members (d : Decl) : list Member :=
  match d with
  | Interface _ _ ms | Class _ _ _ _ ms => ms
  | _ => []
  end.

Definition parents (d : Decl) : list string :=
  match d with
  | Interface _ ext _ => ext
  | Class _ _ _ (Some c) _ => [c]
  | _ => []
  end.

Definition member_name (m : Member) : option string :=
  match m with
  | Property n _ _ _ | Method n _ _ _ _ => Some n
  | CallSignature _ _ | Constructor _ _ => None
  end.

Definition same_name (m m' : Member) : bool :=
  match member_name m, member_name m' with
  | Some n, Some n' => n =? n'
  | _, _ => false
  end.

(** The members of a declaration with those it inherits; a member declared
    again in the heir replaces the inherited one.  [depth] bounds the length
    of the [extends] chain that is followed. *)
Fixpoint members_of (depth : nat) (d : Decl) : list Member :=
  match depth with
  | O => own_members d
  | S k =>
      let inherited :=
        flat_map (fun p => match find_decl p with
                           | Some pd => members_of k pd
                           | None => []
                           end) (parents d) in
      own_members d ++
      filter (fun m => negb (existsb (same_name m) (own_members d))) inherited
  end.

Definition extends_depth : nat := 4.

(** A method signature with its documentation. *)
Record Signature := mkSig {
  s_name : string;
  s_params : list Param;
  s_returns : Ty;
  s_throws : list Throws
}.

Definition signature_of (m : Member) : option Signature :=
  match m with
  | Method n ps r th _ => Some (mkSig n ps r th)
  | _ => None
  end.

Fixpoint signatures (ms : list Member) : list Signature :=
  match ms with
  | [] => []
  | m :: rest =>
      match signature_of m with
      | Some s => s :: signatures rest
      | None => signatures rest
      end
  end.

(** The methods an interface declares itself. *)
Definition own_methods (d : Decl) : list Signature := signatures (own_members d).

(** The methods a value of the interface offers: its own and the inherited. *)
Definition methods (d : Decl) : list Signature :=
  signatures (members_of extends_depth d).

Definition method (d : Decl) (name : string) : option Signature :=
  find (fun s => s_name s =? name) (methods d).

Definition declares (d : Decl) (name : string) : bool :=
  match method d name with Some _ => true | None => false end.

Definition documented_throws (s : Signature) : list string :=
  map exn (s_throws s).

Definition AlreadyAttached : string := "PaymentMethodAlreadyAttachedError".
Definition NotAttached : string := "PaymentMethodNotAttachedError".

(** [documents d m e]: method [m] of [d] carries a [@throws] tag naming [e]. *)
Definition documents (d : Decl) (m e : string) : bool :=
  match method d m with
  | Some s => existsb (String.eqb e) (documented_throws s)
  | None => false
  end.

Definition is_promise (t : Ty) : bool :=
  match t with
  | TApp n [_] => n =? "Promise"
  | _ => false
  end.

(** [resolves_with t r]: [t] is [Promise<r>] for the named type [r]. *)
Definition resolves_with (t : Ty) (r : string) : bool :=
  match t with
  | TApp n [TRef r'] => (n =? "Promise") && (r' =? r)
  | _ => false
  end.

(** Whether a type expression names the type [n] anywhere. *)
Fixpoint mentions (n : string) (t : Ty) : bool :=
  match t with
  | TRef r => r =? n
  | TApp _ args => existsb (mentions n) args
  | TArray e => mentions n e
  | TUnion alts => existsb (mentions n) alts
  | TFunction ps r =>
      existsb (fun p => mentions n (snd p)) ps || mentions n r
  | TObject fs => existsb (fun f => mentions n (snd f)) fs
  | _ => false
  end.

Definition takes (s : Signature) (n : string) : bool :=
  existsb (fun p => mentions n (p_type p)) (s_params s).

(** The interfaces that extend [PaymentMethod]: the payment methods. *)
Definition is_payment_method (d : Decl) : bool :=
  match d with
  | Interface _ ext _ => existsb (String.eqb "PaymentMethod") ext
  | _ => false
  end.

Definition payment_methods : list Decl := filter is_payment_method declarations.

(** The interfaces that declare methods: what a client calls. *)
Definition has_methods (d : Decl) : bool :=
  match d with
  | Interface _ _ _ => negb (Nat.eqb (length (own_methods d)) 0)
  | _ => false
  end.

Definition api_interfaces : list Decl := filter has_methods declarations.

(** The property [n] of a declaration: whether it is optional, and its
    type. *)
Definition property (d : Decl) (n : string) : option (bool * Ty) :=
  match find (fun m => match m with
                       | Property n' _ _ _ => n' =? n
                       | _ => false
                       end) (members_of extends_depth d) with
  | Some (Property _ o _ t) => Some (o, t)
  | _ => None
  end.

Definition enum_values (d : Decl) : list string :=
  match d with
  | Enum _ _ values => map snd values
  | _ => []
  end.

(** A member that is a signature: it has no body. *)
Definition bodyless (m : Member) : bool :=
  match m with
  | Method _ _ _ _ b | Constructor _ b => negb b
  | Property _ _ _ _ | CallSignature _ _ => true
  end.

(** A declaration that only describes: an interface or a type alias (erased
    by the compiler), or an enum or a class under [declare], none of whose
    members has a body. *)
Definition declaration_only (d : Decl) : bool :=
  match d with
  | Interface _ _ ms => forallb bodyless ms
  | TypeAlias _ _ => true
  | Enum amb _ _ => amb
  | Class amb _ _ _ ms => amb && forallb bodyless ms
  | FunctionDecl _ _ _ _ | VariableDecl _ _ _ => false
  end.

(** ** Checks over the table

    Each check decides, for one entry of the table, a property stated
    below of all of them. *)

Definition is_interface (d : Decl) : bool :=
  match d with Interface _ _ _ => true | _ => false end.

(** Equality of the type expressions a method returns directly. *)
Fixpoint ty_eqb (a b : Ty) : bool :=
  match a, b with
  | TString, TString | TNumber, TNumber | TBoolean, TBoolean
  | TVoid, TVoid | TNull, TNull | TAny, TAny => true
  | TLiteral x, TLiteral y | TRef x, TRef y | TTemplate x, TTemplate y => x =? y
  | TArray x, TArray y => ty_eqb x y
  | _, _ => false
  end.

(** The methods that hand their result over directly and not through a
    promise, with the type they return. *)
Definition synchronous (name : string) : option Ty :=
  if name =? "addEventListener" then Some TVoid
  else if name =? "removeEventListener" then Some TVoid
  else if name =? "recalculateSize" then Some TVoid
  else if name =? "update" then Some TBoolean
  else if name =? "paymentRequest" then Some (TRef "PaymentRequest")
  else None.

Definition returns_as_listed (s : Signature) : bool :=
  match synchronous (s_name s) with
  | Some t => ty_eqb (s_returns s) t
  | None => is_promise (s_returns s)
  end.

(** The entry points of [Payments] that create a wallet method. *)
Definition wallet_factory (name : string) : bool :=
  (name =? "applePay") || (name =? "googlePay").

Definition request_goes_to_wallets (s : Signature) : bool :=
  Bool.eqb (takes s "PaymentRequest") (wallet_factory (s_name s)).

(** The interface documents that the form is attached before it is used:
    it declares [attach] and [configure], [attach] documents the exception
    of an instance that is attached already, and [configure] and [tokenize]
    document the exception of one that is not attached yet. *)
Definition documents_attach_first (d : Decl) : bool :=
  declares d "attach" && declares d "configure" &&
  documents d "attach" AlreadyAttached &&
  documents d "configure" NotAttached &&
  documents d "tokenize" NotAttached.

(** The interface has a [tokenize] whose promise resolves with a
    [TokenResult]. *)
Definition tokenizes (d : Decl) : bool :=
  match method d "tokenize" with
  | Some s => resolves_with (s_returns s) "TokenResult"
  | None => false
  end.

(** The payment methods that render a form into the page. *)
Definition is_form (d : Decl) : bool :=
  (decl_name d =? "Card") || (decl_name d =? "GiftCard").

(** The payment methods that render nothing into the page. *)
Definition is_sheet (d : Decl) : bool :=
  (decl_name d =? "ApplePay") || (decl_name d =? "ACH").

Definition attach_order_as_documented (d : Decl) : bool :=
  tokenizes d &&
  Bool.eqb (documents_attach_first d) (is_form d) &&
  Bool.eqb (documents d "tokenize" NotAttached) (is_form d) &&
  implb (is_sheet d)
        (negb (declares d "attach") && negb (declares d "configure")) &&
  implb (decl_name d =? "ERCPay")
        (declares d "attach" && negb (declares d "configure")).

(** Three signatures of the table, by name. *)
Definition card_tokenize : Signature :=
  mkSig "tokenize" [] (TPromise (TRef "TokenResult"))
    [ mkThrows "TokenizationError" "if tokenization fails";
      mkThrows "PaymentMethodNotAttachedError"
        "`Card` is not attached to a DOM element yet.";
      mkThrows "TokenizationError" "Tokenization of the payment card failed." ].

Definition ach_tokenize : Signature :=
  mkSig "tokenize" [arg "options" (TRef "AchTokenOptions")]
    (TPromise (TRef "TokenResult"))
    [ mkThrows "PlaidUninitializedError"
        "The plaid handler was not initialized correctly";
      mkThrows "PlaidMissingNameError"
        "`{ accountHolderName: string }` is a required parameter";
      mkThrows "TokenizationError"
        "The bank transfer request could not be tokenized" ].

Definition paymentRequest_signature : Signature :=
  mkSig "paymentRequest" [arg "options" (TRef "PaymentRequestOptions")]
    (TRef "PaymentRequest") [].

(** ** Names and scope

    What a module refers to, against what it declares, imports and
    exports. *)

(** The type names a type expression refers to. *)
Fixpoint type_names (t : Ty) : list string :=
  match t with
  | TRef n => [n]
  | TApp n args => n :: flat_map type_names args
  | TArray e => type_names e
  | TUnion alts => flat_map type_names alts
  | TTemplate e => [e]
  | TFunction ps r => flat_map (fun p => type_names (snd p)) ps ++ type_names r
  | TObject fs => flat_map (fun f => type_names (snd f)) fs
  | TString | TNumber | TBoolean | TVoid | TNull | TAny | TLiteral _ => []
  end.

Definition param_names (ps : list Param) : list string :=
  flat_map (fun p => type_names (p_type p)) ps.

Definition member_names (m : Member) : list string :=
  match m with
  | Property _ _ _ t => type_names t
  | Method _ ps r _ _ | CallSignature ps r => param_names ps ++ type_names r
  | Constructor ps _ => param_names ps
  end.

Definition named_in (n : string) (l : list string) : bool :=
  existsb (String.eqb n) l.

(** The type names a declaration refers to; the type parameters of a class
    are bound by the class itself. *)
Definition decl_refs (d : Decl) : list string :=
  match d with
  | Interface _ ext ms => ext ++ flat_map member_names ms
  | TypeAlias _ body => type_names body
  | Enum _ _ _ => []
  | Class _ _ tparams ext ms =>
      filter (fun n => negb (named_in n tparams))
             (match ext with Some c => [c] | None => [] end
              ++ flat_map member_names ms)
  | FunctionDecl _ _ ps r => param_names ps ++ type_names r
  | VariableDecl _ _ t => type_names t
  end.

(** The types of the language and of the browser that the source uses
    without an import. *)
Definition builtins : list string := ["HTMLElement"; "Error"; "Promise"; "Partial"].

Definition declared_names (m : SourceModule) : list string :=
  map decl_name (decls m).

Definition imported_names (m : SourceModule) : list string :=
  flat_map imported (imports m).

Definition references (m : SourceModule) : list string :=
  flat_map decl_refs (decls m).

Definition in_scope (m : SourceModule) (n : string) : bool :=
  named_in n (declared_names m) || named_in n (imported_names m)
  || named_in n builtins.

(** The module that declares [n] and exports it. *)
Definition exporter (n : string) : option SourceModule :=
  find (fun m => named_in n (declared_names m) && named_in n (exports m))
       source_modules.

(** ** Inheritance *)

(** What a declaration inherits from the parents the source declares. *)
Definition inherited_members (d : Decl) : list Member :=
  flat_map (fun p => match find_decl p with
                     | Some pd => members_of extends_depth pd
                     | None => []
                     end) (parents d).

(** The member that a value of [d] offers under the name [n]. *)
Definition member_named (d : Decl) (n : string) : option Member :=
  find (fun m => match member_name m with
                 | Some n' => n' =? n
                 | None => false
                 end) (members_of extends_depth d).

(** [covers m' m]: whatever an object must hold for the member [m'] it
    holds for [m]: the same property with the same type, required if [m]
    is, or a method of the same name. *)
Definition covers (m' m : Member) : bool :=
  match m', m with
  | Property n' o' _ t', Property n o _ t =>
      (n' =? n) && implb o' o && ty_eqb t' t
  | Method n' _ _ _ _, Method n _ _ _ _ => n' =? n
  | _, _ => false
  end.

(** A member that an object may go without: an optional property. *)
Definition is_optional (m : Member) : bool :=
  match m with
  | Property _ o _ _ => o
  | Method _ _ _ _ _ | CallSignature _ _ | Constructor _ _ => false
  end.

(** ** Entry points *)

(** The method of [Payments] whose return type names the declaration
    [d], wherever in the type. *)
Definition factory (d : Decl) : option Signature :=
  find (fun s => named_in (decl_name d) (type_names (s_returns s)))
       (own_methods Payments).

(** ** Documented exceptions *)

(** Every exception that a [@throws] tag of the source names. *)
Definition documented_exceptions : list string :=
  flat_map (fun d => flat_map documented_throws (own_methods d)) declarations.

(** The classes of the source that extend [SqError]. *)
Definition is_error_class (d : Decl) : bool :=
  match d with
  | Class _ _ _ (Some c) _ => c =? "SqError"
  | _ => false
  end.

End Surface.

(* ================================================================== *)
(** * Structural typing of plain data against the declarations *)
(* ================================================================== *)

Module Typing.
Import Surface.

(** Plain JavaScript data.  Numbers are taken integral: the declared data
    carries amounts as strings, and no property below computes with a
    number.  A function is opaque: [JFun] stands for any function, and
    carries neither its parameters nor what it returns. *)
Inductive JsValue : Type :=
| JUndefined
| JNull
| JBool (b : bool)
| JNum (n : Z)
| JStr (s : string)
| JArr (items : list JsValue)
| JObj (props : list (string * JsValue))
| JFun.

(** Property read: [o.k], [undefined] when the object has no such key. *)
Fixpoint get (k : string) (props : list (string * JsValue)) : JsValue :=
  match props with
  | [] => JUndefined
  | (k', v) :: rest => if k' =? k then v else get k rest
  end.

Definition has (k : string) (v : JsValue) : bool :=
  match v with
  | JObj props => match get k props with JUndefined => false | _ => true end
  | _ => false
  end.

Definition field (k : string) (v : JsValue) : JsValue :=
  match v with
  | JObj props => get k props
  | _ => JUndefined
  end.

Definition defined (v : JsValue) : bool :=
  match v with JUndefined => false | _ => true end.

Definition enum_value (values : list (string * string)) (v : JsValue) : bool :=
  match v with
  | JStr s => existsb (fun m => snd m =? s) values
  | _ => false
  end.

(** One property or method of an interface against the object [props];
    [check] decides the types of the property values.  An optional property
    may be missing or [undefined]; under [Partial] every property may.  A
    method asks for a function under its name.  No object of plain data has
    a call signature or a constructor: an interface with such a member
    ([SqEventListener]) types functions, which this typing of data leaves
    out. *)
Definition member_conforms (check : JsValue -> Ty -> bool) (partial : bool)
  (props : list (string * JsValue)) (m : Member) : bool :=
  match m with
  | Property n optional _ ty =>
      match get n props with
      | JUndefined => optional || partial
      | x => check x ty
      end
  | Method n _ _ _ _ =>
      match get n props with JFun => true | _ => false end
  | CallSignature _ _ | Constructor _ _ => false
  end.

(** An interface asks for an object whose required properties are present
    and whose present properties have their declared types; further
    properties are allowed, as in structural typing. *)
Definition object_conforms (check : JsValue -> Ty -> bool) (partial : bool)
  (d : Decl) (v : JsValue) : bool :=
  match d, v with
  | Interface _ _ _, JObj props =>
      forallb (member_conforms check partial props)
              (members_of extends_depth d)
  | _, _ => false
  end.

Definition record_conforms (check : JsValue -> Ty -> bool)
  (props : list (string * JsValue)) (f : string * Ty) : bool :=
  match get (fst f) props with
  | JUndefined => false
  | x => check x (snd f)
  end.

(** One layer of the typing; [check] types what is nested inside.

    The repository holds declarations and no type checker: this is the
    development's reading of the assignability of the TypeScript language,
    for plain data and the declarations of the table.  Where it departs
    from the compiler:
    - a function value is taken for every function type, since [JFun]
      carries no signature: the typing accepts more functions than the
      compiler;
    - a reference to a type the source does not hold ([Error],
      [CardDetails]) conforms to nothing, and neither does a promise, an
      instance of a class or a function where an interface with a call
      signature is asked for: they are no plain data, and the typing
      accepts fewer values than the compiler there;
    - an object literal is not checked for excess properties, nor for
      sharing no property with an all-optional type: those checks of the
      compiler concern how a value is written, not what it is. *)
Definition conforms_layer (check : JsValue -> Ty -> bool) (v : JsValue)
  (t : Ty) : bool :=
  match t with
  | TString => match v with JStr _ => true | _ => false end
  | TNumber => match v with JNum _ => true | _ => false end
  | TBoolean => match v with JBool _ => true | _ => false end
  | TVoid => match v with JUndefined => true | _ => false end
  | TNull => match v with JNull => true | _ => false end
  | TAny => true
  | TLiteral s => match v with JStr s' => s' =? s | _ => false end
  | TRef n =>
      match find_decl n with
      | Some (TypeAlias _ body) => check v body
      | Some (Enum _ _ values) => enum_value values v
      | Some d => object_conforms check false d v
      | None => false
      end
  | TApp n [TRef r] =>
      if n =? "Partial"
      then match find_decl r with
           | Some d => object_conforms check true d v
           | None => false
           end
      else false
  | TApp _ _ => false
  | TArray e =>
      match v with
      | JArr items => forallb (fun x => check x e) items
      | _ => false
      end
  | TUnion alts => existsb (check v) alts
  | TTemplate e =>
      match find_decl e with
      | Some (Enum _ _ values) => enum_value values v
      | _ => false
      end
  | TFunction _ _ => match v with JFun => true | _ => false end
  | TObject fs =>
      match v with
      | JObj props => forallb (record_conforms check props) fs
      | _ => false
      end
  end.

(** [conforms depth v t]: the value [v] is assignable to the type [t];
    [depth] bounds the nesting of named types. *)
Fixpoint conforms (depth : nat) (v : JsValue) (t : Ty) {struct depth} : bool :=
  match depth with
  | O => false
  | S k => conforms_layer (conforms k) v t
  end.

Definition typing_depth : nat := 8.

(** [v : T] for a declared type [T]. *)
Definition well_typed (v : JsValue) (T : string) : bool :=
  conforms typing_depth v (TRef T).

(** The arguments of a call against the parameters of the signature: each
    argument has the type of its parameter, and only optional parameters go
    without an argument. *)
Fixpoint arguments_conform (ps : list Param) (args : list JsValue) : bool :=
  match ps, args with
  | [], [] => true
  | [], _ :: _ => false
  | p :: ps', [] => p_optional p && arguments_conform ps' []
  | p :: ps', a :: args' =>
      conforms typing_depth a (p_type p) && arguments_conform ps' args'
  end.

Definition accepts (s : Signature) (args : list JsValue) : bool :=
  arguments_conform (s_params s) args.

End Typing.

(* ================================================================== *)
(** * The data shapes of a payment request *)
(* ================================================================== *)

Module Shapes.
Import Typing.

(** [declare enum CurrencyCode], and its union type [CurrencyCodeValue]. *)
Module CurrencyCode.
Inductive t : Type := GBP | USD.

Definition text (c : t) : string :=
  match c with GBP => "GBP" | USD => "USD" end.
End CurrencyCode.

(** [declare enum TokenStatus] *)
Module TokenStatus.
Inductive t : Type := UNKNOWN | OK | ERROR | INVALID | ABORT | CANCEL.

Definition text (s : t) : string :=
  match s with
  | UNKNOWN => "Unknown"
  | OK => "OK"
  | ERROR => "Error"
  | INVALID => "Invalid"
  | ABORT => "Abort"
  | CANCEL => "Cancel"
  end.
End TokenStatus.

(** [interface TokenErrorDetails] *)
Module TokenErrorDetails.
Record t := mk {
  type : string;
  message : string;
  field : option string
}.
End TokenErrorDetails.

(** [interface LineItem] *)
Module LineItem.
Record t := mk {
  amount : string;
  id : option string;
  imageUrl : option string;
  label : string;
  pending : option bool;
  productUrl : option string
}.
End LineItem.

(** [interface ShippingOption] *)
Module ShippingOption.
Record t := mk {
  id : string;
  label : string;
  amount : string
}.
End ShippingOption.

(** [interface Contact] *)
Module Contact.
Record t := mk {
  givenName : option string;
  familyName : option string;
  addressLines : option (list string);
  city : option string;
  state : option string;
  postalCode : option string;
  countryCode : option string
}.
End Contact.

(** [interface ShippingContact extends Contact] *)
Module ShippingContact.
Record t := mk {
  contact : Contact.t;
  email : option string;
  phone : option string
}.
End ShippingContact.

(** [interface PaymentRequestOptions] *)
Module PaymentRequestOptions.
Record t := mk {
  countryCode : string;
  currencyCode : CurrencyCode.t;
  discounts : option (list LineItem.t);
  lineItems : option (list LineItem.t);
  requestBillingContact : option bool;
  requestShippingContact : option bool;
  shippingContact : option ShippingContact.t;
  shippingLineItems : option (list LineItem.t);
  shippingOptions : option (list ShippingOption.t);
  taxLineItems : option (list LineItem.t);
  total : LineItem.t
}.
End PaymentRequestOptions.

(** [Partial<PaymentRequestOptions>], the argument of [update]: every
    property may be left out. *)
Module PartialOptions.
Record t := mk {
  countryCode : option string;
  currencyCode : option CurrencyCode.t;
  discounts : option (list LineItem.t);
  lineItems : option (list LineItem.t);
  requestBillingContact : option bool;
  requestShippingContact : option bool;
  shippingContact : option ShippingContact.t;
  shippingLineItems : option (list LineItem.t);
  shippingOptions : option (list ShippingOption.t);
  taxLineItems : option (list LineItem.t);
  total : option LineItem.t
}.
End PartialOptions.

(** [interface SetLocaleResult] *)
Module SetLocaleResult.
Record t := mk {
  previousLocale : string;
  newLocale : string;
  message : option string
}.
End SetLocaleResult.

(** ** The records as JavaScript objects

    An optional property that is not given is written with the value
    [undefined]. *)

Definition optional {A : Type} (f : A -> JsValue) (x : option A) : JsValue :=
  match x with
  | Some a => f a
  | None => JUndefined
  end.

Definition array {A : Type} (f : A -> JsValue) (l : list A) : JsValue :=
  JArr (map f l).

Definition js_line_item (i : LineItem.t) : JsValue :=
  JObj [ ("amount", JStr (LineItem.amount i));
         ("id", optional JStr (LineItem.id i));
         ("imageUrl", optional JStr (LineItem.imageUrl i));
         ("label", JStr (LineItem.label i));
         ("pending", optional JBool (LineItem.pending i));
         ("productUrl", optional JStr (LineItem.productUrl i)) ].

Definition js_shipping_option (o : ShippingOption.t) : JsValue :=
  JObj [ ("id", JStr (ShippingOption.id o));
         ("label", JStr (ShippingOption.label o));
         ("amount", JStr (ShippingOption.amount o)) ].

Definition js_contact_props (c : Contact.t) : list (string * JsValue) :=
  [ ("givenName", optional JStr (Contact.givenName c));
    ("familyName", optional JStr (Contact.familyName c));
    ("addressLines", optional (array JStr) (Contact.addressLines c));
    ("city", optional JStr (Contact.city c));
    ("state", optional JStr (Contact.state c));
    ("postalCode", optional JStr (Contact.postalCode c));
    ("countryCode", optional JStr (Contact.countryCode c)) ].

Definition js_shipping_contact (c : ShippingContact.t) : JsValue :=
  JObj (js_contact_props (ShippingContact.contact c) ++
        [ ("email", optional JStr (ShippingContact.email c));
          ("phone", optional JStr (ShippingContact.phone c)) ]).

Definition js_options (o : PaymentRequestOptions.t) : JsValue :=
  JObj [ ("countryCode", JStr (PaymentRequestOptions.countryCode o));
         ("currencyCode",
           JStr (CurrencyCode.text (PaymentRequestOptions.currencyCode o)));
         ("discounts",
           optional (array js_line_item) (PaymentRequestOptions.discounts o));
         ("lineItems",
           optional (array js_line_item) (PaymentRequestOptions.lineItems o));
         ("requestBillingContact",
           optional JBool (PaymentRequestOptions.requestBillingContact o));
         ("requestShippingContact",
           optional JBool (PaymentRequestOptions.requestShippingContact o));
         ("shippingContact",
           optional js_shipping_contact
             (PaymentRequestOptions.shippingContact o));
         ("shippingLineItems",
           optional (array js_line_item)
             (PaymentRequestOptions.shippingLineItems o));
         ("shippingOptions",
           optional (array js_shipping_option)
             (PaymentRequestOptions.shippingOptions o));
         ("taxLineItems",
           optional (array js_line_item) (PaymentRequestOptions.taxLineItems o));
         ("total", js_line_item (PaymentRequestOptions.total o)) ].

Definition js_token_error (e : TokenErrorDetails.t) : JsValue :=
  JObj [ ("type", JStr (TokenErrorDetails.type e));
         ("message", JStr (TokenErrorDetails.message e));
         ("field", optional JStr (TokenErrorDetails.field e)) ].

(** A [TokenResult] with the given status, errors and token, and no
    details. *)
Definition js_token_result (status : TokenStatus.t)
  (errors : option (list TokenErrorDetails.t)) (token : option string)
  : JsValue :=
  JObj [ ("status", JStr (TokenStatus.text status));
         ("errors", optional (array js_token_error) errors);
         ("token", optional JStr token) ].

(** ** Amounts

    An amount is "a string representation of a float with two decimal
    places (e.g., "15.00")", negative for a discount.  [cents] reads such
    a string as a number of hundredths; any other string has no value. *)

Definition digit (c : ascii) : option Z :=
  let n := Z.of_nat (nat_of_ascii c) in
  if (48 <=? n)%Z && (n <=? 57)%Z then Some (n - 48)%Z else None.

(** [whole acc s]: the digits of [s] up to the decimal point, read after
    [acc], and what follows the point. *)
Fixpoint whole (acc : Z) (s : string) : option (Z * string) :=
  match s with
  | EmptyString => None
  | String "." rest => Some (acc, rest)
  | String c rest =>
      match digit c with
      | Some d => whole (10 * acc + d)%Z rest
      | None => None
      end
  end.

Definition hundredths (s : string) : option Z :=
  match s with
  | String a (String b EmptyString) =>
      match digit a, digit b with
      | Some x, Some y => Some (10 * x + y)%Z
      | _, _ => None
      end
  | _ => None
  end.

Definition unsigned_cents (s : string) : option Z :=
  match s with
  | String "." _ => None
  | _ =>
      match whole 0 s with
      | Some (w, frac) =>
          match hundredths frac with
          | Some h => Some (100 * w + h)%Z
          | None => None
          end
      | None => None
      end
  end.

Definition cents (s : string) : option Z :=
  match s with
  | String "-" rest => option_map Z.opp (unsigned_cents rest)
  | _ => unsigned_cents s
  end.

Fixpoint sum_cents (items : list LineItem.t) : option Z :=
  match items with
  | [] => Some 0%Z
  | i :: rest =>
      match cents (LineItem.amount i), sum_cents rest with
      | Some a, Some b => Some (a + b)%Z
      | _, _ => None
      end
  end.

(** The documented constraint on a total: "this is the total charge of the
    payment and should equal the sum of the line items".  Options without
    line items have nothing to add up. *)
Definition total_is_sum (o : PaymentRequestOptions.t) : bool :=
  match PaymentRequestOptions.lineItems o with
  | None => true
  | Some items =>
      match cents (LineItem.amount (PaymentRequestOptions.total o)),
            sum_cents items with
      | Some t, Some s => (t =? s)%Z
      | _, _ => false
      end
  end.

Definition item (amount label : string) : LineItem.t :=
  LineItem.mk amount None None label None None.

(** The request of the example in the [PaymentRequest] documentation. *)
Definition documented_example : PaymentRequestOptions.t :=
  PaymentRequestOptions.mk "US" CurrencyCode.USD None
    (Some [ item "2.00" "Item Cost"; item "0.00" "Shipping";
            item "0.00" "Tax" ])
    (Some true) (Some true) None None
    (Some [ ShippingOption.mk "shipping-option-1" "Free" "0.00" ])
    None
    (item "1.00" "Total").

(** The request of the example in the [paymentRequest] documentation. *)
Definition cat_and_dog : PaymentRequestOptions.t :=
  PaymentRequestOptions.mk "US" CurrencyCode.USD None
    (Some [ LineItem.mk "1.23" None None "Cat" (Some false) None;
            LineItem.mk "4.56" None None "Dog" (Some false) None ])
    (Some false) (Some true)
    (Some (ShippingContact.mk
             (Contact.mk (Some "Last Name") (Some "First Name")
                (Some ["1 Test St"; ""]) (Some "San Francisco") (Some "CA")
                (Some "11111") (Some "US"))
             (Some "test@squareup.com") (Some "+12345678910")))
    None
    (Some [ ShippingOption.mk "FREE" "Free" "0.00";
            ShippingOption.mk "XP" "Express" "9.99" ])
    None
    (LineItem.mk "5.79" None None "Total" (Some false) None).

End Shapes.

(* ================================================================== *)
(** * The documented contract of the runtime *)
(* ================================================================== *)

Module Contract.
Import Surface Typing Shapes.

(** What a call comes to: a value (returned, or resolved by the promise), or
    an exception. *)
Inductive Outcome : Type :=
| Returned (v : JsValue)
| Threw (e : string).

(** What the closed runtime does with a call that its documented
    preconditions let through.  Nothing in the repository computes it: it is
    an input of the model. *)
Inductive Answer : Type :=
| Completes (v : JsValue)
| Raises (e : string).

(** ** The life of a payment method instance *)

Inductive Life : Type := Fresh | Attached | Destroyed.

Definition is_attached (l : Life) : bool :=
  match l with Attached => true | _ => false end.

(** Modelled from the spec: the implementation of the payment methods is
    not in the repository.  The specification (section 7) reads the two
    attachment exceptions as precondition failures: a method throws when a
    precondition such as 'already attached' or 'not attached' is violated.
    The [@throws] tags give the state: "`Card` is already attached to a DOM
    element", "`Card` is not attached to a DOM element yet". *)
Definition precondition_violated (e : string) (l : Life) : bool :=
  if e =? AlreadyAttached then is_attached l
  else if e =? NotAttached then negb (is_attached l)
  else false.

Definition is_precondition (e : string) : bool :=
  (e =? AlreadyAttached) || (e =? NotAttached).

(** The first documented precondition of the method that the state breaks. *)
Definition violated (s : Signature) (l : Life) : option string :=
  find (fun e => precondition_violated e l) (documented_throws s).

(** The failures of the runtime itself: the documented exceptions that are
    not preconditions on the state. *)
Definition may_raise (s : Signature) (e : string) : bool :=
  negb (is_precondition e) && existsb (String.eqb e) (documented_throws s).

(** The type of the value a call yields: [T] for a method that returns
    [Promise<T>]. *)
Definition result_type (s : Signature) : Ty :=
  match s_returns s with
  | TApp n [t] => if n =? "Promise" then t else s_returns s
  | t => t
  end.

(** Modelled from the spec: what a completed call does to the instance is
    not in the repository.  From the comments of the methods: "Attaches the
    Card form to the page"; "Destroys the card payment object". *)
Definition effect (m : string) (l : Life) : Life :=
  if m =? "attach" then Attached
  else if m =? "destroy" then Destroyed
  else l.

(** Modelled from the spec: one call of method [m] on an instance of the
    payment method interface [d], by the declarations and their
    documentation alone.  [None] where they say nothing: the method is not
    declared on [d], the instance is destroyed, the runtime's answer is an
    exception the method does not document or a value that is not of its
    return type. *)
Definition call (d : Decl) (l : Life) (m : string) (a : Answer)
  : option (Outcome * Life) :=
  match l, method d m with
  | Destroyed, _ => None
  | _, None => None
  | _, Some s =>
      match violated s l with
      | Some e => Some (Threw e, l)
      | None =>
          match a with
          | Raises e => if may_raise s e then Some (Threw e, l) else None
          | Completes v =>
              if conforms typing_depth v (result_type s)
              then Some (Returned v, effect m l)
              else None
          end
      end
  end.

(** Modelled from the spec: a client's session with one instance, the
    calls in order, each with the runtime's answer; it ends where [call]
    says nothing. *)
Fixpoint run (d : Decl) (l : Life) (calls : list (string * Answer))
  : option (list Outcome * Life) :=
  match calls with
  | [] => Some ([], l)
  | (m, a) :: rest =>
      match call d l m a with
      | None => None
      | Some (o, l') =>
          match run d l' rest with
          | None => None
          | Some (os, l'') => Some (o :: os, l'')
          end
      end
  end.

(** ** Payment requests *)

Module Request.
Record t := mk {
  options : PaymentRequestOptions.t;
  sheet_displayed : bool
}.
End Request.

Definition or_else {A : Type} (x : option A) (y : A) : A :=
  match x with Some a => a | None => y end.

Definition or_keep {A : Type} (x y : option A) : option A :=
  match x with Some a => Some a | None => y end.

(** Modelled from the spec: how [update] combines the options is not in
    the repository.  "Updates the specified options of the PaymentRequest":
    a property the update gives replaces the request's, the others stay. *)
Definition merge (o : PaymentRequestOptions.t) (p : PartialOptions.t)
  : PaymentRequestOptions.t :=
  PaymentRequestOptions.mk
    (or_else (PartialOptions.countryCode p) (PaymentRequestOptions.countryCode o))
    (or_else (PartialOptions.currencyCode p)
       (PaymentRequestOptions.currencyCode o))
    (or_keep (PartialOptions.discounts p) (PaymentRequestOptions.discounts o))
    (or_keep (PartialOptions.lineItems p) (PaymentRequestOptions.lineItems o))
    (or_keep (PartialOptions.requestBillingContact p)
       (PaymentRequestOptions.requestBillingContact o))
    (or_keep (PartialOptions.requestShippingContact p)
       (PaymentRequestOptions.requestShippingContact o))
    (or_keep (PartialOptions.shippingContact p)
       (PaymentRequestOptions.shippingContact o))
    (or_keep (PartialOptions.shippingLineItems p)
       (PaymentRequestOptions.shippingLineItems o))
    (or_keep (PartialOptions.shippingOptions p)
       (PaymentRequestOptions.shippingOptions o))
    (or_keep (PartialOptions.taxLineItems p)
       (PaymentRequestOptions.taxLineItems o))
    (or_else (PartialOptions.total p) (PaymentRequestOptions.total o)).

(** Modelled from the spec: [payments.paymentRequest(options)] has no
    implementation in the repository.  The declaration documents no
    failure, and the request starts with no payment sheet on display. *)
Definition paymentRequest (options : PaymentRequestOptions.t) : Request.t :=
  Request.mk options false.

Section Update.

(** What the runtime takes for a valid payment request is not in the
    repository: [update] documents [@throws {InvalidPaymentRequestError}]
    and no more. *)
Variable valid : PaymentRequestOptions.t -> bool.

(** Modelled from the spec: the implementation of [PaymentRequest.update]
    is not in the repository.  Its documentation: "Updates the specified
    options of the PaymentRequest.  Returns `true` if the update was
    successful.  Updates are not allowed while the Apple Pay or Google Pay
    payment sheets are currently being displayed to the buyer.  In these
    cases, `update()` will return `false`." *)
Definition update (r : Request.t) (p : PartialOptions.t)
  : Outcome * Request.t :=
  if Request.sheet_displayed r then (Returned (JBool false), r)
  else
    let o := merge (Request.options r) p in
    if valid o
    then (Returned (JBool true), Request.mk o (Request.sheet_displayed r))
    else (Threw "InvalidPaymentRequestError", r).

End Update.

(** ** Locales *)

(** The language subtag of a BCP 47 tag: what stands before the first
    hyphen. *)
Fixpoint language (tag : string) : string :=
  match tag with
  | EmptyString => EmptyString
  | String c rest =>
      if (c =? "-")%char then EmptyString else String c (language rest)
  end.

(** What follows the first hyphen, the region of a tag such as [en-US];
    [None] for a tag that is a language alone. *)
Fixpoint region (tag : string) : option string :=
  match tag with
  | EmptyString => None
  | String c rest => if (c =? "-")%char then Some rest else region rest
  end.

Section Locale.

(** The locales the SDK supports are not listed in the repository. *)
Variable supported : list string.

Definition locale_supported (tag : string) : bool :=
  existsb (String.eqb tag) supported.

Definition same_language (tag tag' : string) : bool :=
  language tag' =? language tag.

Definition language_supported (tag : string) : bool :=
  existsb (same_language tag) supported.

(** Modelled from the spec: the implementation of [Payments.setLocale] is
    not in the repository.  Its documentation: "If the specified language
    passed to setLocale() is not supported, the operation is a no-op.  If
    the specified language is supported, but the specified region is not,
    Web Payments SDK will fall back to using the desired language in a
    different supported region." *)
Definition choose (current requested : string) : string :=
  if locale_supported requested then requested
  else match find (same_language requested) supported with
       | Some fallback => fallback
       | None => current
       end.

(** Modelled from the spec: [setLocale], the reply and the locale of the
    SDK afterwards; its choice of the locale is [choose].  [healthy] is
    false when "the payment context cannot initialize or the locale cannot
    be set", the documented [UnexpectedError].  The result carries "the
    previous locale string of the WebPaySDK before setLocale() was called"
    and "the new locale string after setLocale() was called"; [note] is
    the runtime's message. *)
Definition setLocale (note : option string) (current : string)
  (healthy : bool) (requested : string)
  : (SetLocaleResult.t + string) * string :=
  if healthy
  then let new := choose current requested in
       (inl (SetLocaleResult.mk current new note), new)
  else (inr "UnexpectedError", current).

End Locale.

(** ** What the tags of a form guard *)

Definition outcome (r : option (Outcome * Life)) : option Outcome :=
  option_map fst r.

(** The method documents [NotAttached], and not [AlreadyAttached]: its
    precondition is an attached instance. *)
Definition guards_use (s : Signature) : bool :=
  existsb (String.eqb NotAttached) (documented_throws s) &&
  negb (existsb (String.eqb AlreadyAttached) (documented_throws s)).

(** The tags of a form: [attach] documents [AlreadyAttached] and the
    runtime's [UnexpectedError], [configure] and [tokenize] are guarded by
    [NotAttached]. *)
Definition form_is_guarded (d : Decl) : bool :=
  match method d "attach", method d "configure", method d "tokenize" with
  | Some a, Some c, Some t =>
      match documented_throws a with
      | [e; e'] => (e =? AlreadyAttached) && (e' =? "UnexpectedError")
      | _ => false
      end && guards_use c && guards_use t
  | _, _, _ => false
  end.

End Contract.

(* ================================================================== *)
(** * Properties of the declared surface *)
(* ================================================================== *)

Import Surface Typing Shapes Contract.

(** A property that a boolean check decides over a list of the table holds
    of each entry. *)
Lemma checked_on_all {A : Type} (check : A -> bool) (P : A -> Prop) (l : list A) :
  (forall x, check x = true -> P x) ->
  forallb check l = true ->
  forall x, In x l -> P x.
Proof.
  intros sound all x Hx.
  apply sound.
  rewrite forallb_forall in all.
  now apply all.
Qed.

(** ** Declarations only *)

(** The source declares 55 names, each once: a name finds its declaration. *)
Lemma declarations_are_distinct :
  length declarations = 55 /\
  distinct (map decl_name declarations) = true /\
  forall d, In d declarations -> find_decl (decl_name d) = Some d.
Proof.
  split; [ reflexivity | split; [ reflexivity | ] ].
  intros d listed.
  unfold declarations, source_modules in listed. simpl in listed.
  repeat (destruct listed as [<- | listed]; [ reflexivity | ]).
  contradiction.
Qed.

Lemma every_module_declares_only :
  forallb (fun m => forallb declaration_only (decls m)) source_modules = true.
Proof. vm_compute. reflexivity. Qed.

(** C8: every declaration in the source is an interface, a type alias, or an
    enum or a class under [declare], and no member of any of them has a
    function body: the repository has signatures and no implementation. *)
Theorem source_is_declarations_only :
  forall m d, In m source_modules -> In d (decls m) ->
    declaration_only d = true /\
    (forall mem, In mem (own_members d) -> bodyless mem = true) /\
    match d with
    | Interface _ _ _ | TypeAlias _ _ => True
    | Enum amb _ _ | Class amb _ _ _ _ => amb = true
    | FunctionDecl _ _ _ _ | VariableDecl _ _ _ => False
    end.
Proof.
  intros m d Hm Hd.
  assert (only : declaration_only d = true).
  { revert d Hd.
    apply (checked_on_all declaration_only); [ trivial | ].
    revert m Hm.
    apply (checked_on_all (fun m => forallb declaration_only (decls m)));
      [ trivial | apply every_module_declares_only ]. }
  split; [ exact only | split ].
  - intros mem Hmem.
    destruct d as [n ext ms | n b | amb n vs | amb n tp ext ms | amb n ps r | amb n t];
      simpl in *; try contradiction.
    + rewrite forallb_forall in only. now apply only.
    + apply andb_true_iff in only as [_ only].
      rewrite forallb_forall in only. now apply only.
  - destruct d; simpl in only; try exact I; try discriminate; auto.
    now apply andb_true_iff in only as [only _].
Qed.

Lemma source_is_declarations_only_witness :
  In errors_script source_modules /\
  In ScriptLoaderError (decls errors_script) /\
  declaration_only ScriptLoaderError = true.
Proof.
  assert (Hm : In errors_script source_modules) by (vm_compute; tauto).
  assert (Hd : In ScriptLoaderError (decls errors_script)) by (simpl; auto).
  split; [ exact Hm | split; [ exact Hd | ] ].
  exact (proj1 (source_is_declarations_only errors_script ScriptLoaderError Hm Hd)).
Defined.

(** ** Return types *)

Lemma ty_eqb_sound (a b : Ty) : ty_eqb a b = true -> a = b.
Proof.
  revert b.
  induction a; destruct b; simpl; intros H; try discriminate; try reflexivity;
    try (apply String.eqb_eq in H; now subst).
  f_equal. now apply IHa.
Qed.

Lemma every_method_returns_as_listed :
  forallb (fun d => forallb returns_as_listed (own_methods d)) api_interfaces
  = true.
Proof. vm_compute. reflexivity. Qed.

(** C4 as it is stated fails: [PaymentRequest.update] is a method of the
    declared surface and returns [boolean], not a promise. *)
Lemma update_returns_no_promise :
  In PaymentRequest api_interfaces /\
  exists s, In s (own_methods PaymentRequest) /\
            s_name s = "update" /\
            s_returns s = TBoolean /\
            is_promise (s_returns s) = false.
Proof.
  split.
  - vm_compute. tauto.
  - exists (mkSig "update"
              [arg "options" (TPartial (TRef "PaymentRequestOptions"))]
              TBoolean [mkThrows "InvalidPaymentRequestError" ""]).
    repeat split.
    simpl. auto.
Qed.

(** C4, amended: every method of the interfaces a client calls returns a
    promise, except the five synchronous ones: [addEventListener],
    [removeEventListener] and [recalculateSize] return [void], [update]
    returns [boolean] and [paymentRequest] returns a [PaymentRequest]. *)
Theorem methods_return_promises_unless_synchronous :
  forall d s, In d api_interfaces -> In s (own_methods d) ->
    match synchronous (s_name s) with
    | Some t => s_returns s = t /\ is_promise (s_returns s) = false
    | None => is_promise (s_returns s) = true
    end.
Proof.
  intros d s Hd Hs.
  assert (listed : returns_as_listed s = true).
  { revert s Hs.
    apply (checked_on_all returns_as_listed); [ trivial | ].
    revert d Hd.
    apply (checked_on_all (fun d => forallb returns_as_listed (own_methods d)));
      [ trivial | apply every_method_returns_as_listed ]. }
  unfold returns_as_listed in listed.
  unfold synchronous in *.
  destruct (s_name s =? "addEventListener");
    [ apply ty_eqb_sound in listed; rewrite listed; split; reflexivity | ].
  destruct (s_name s =? "removeEventListener");
    [ apply ty_eqb_sound in listed; rewrite listed; split; reflexivity | ].
  destruct (s_name s =? "recalculateSize");
    [ apply ty_eqb_sound in listed; rewrite listed; split; reflexivity | ].
  destruct (s_name s =? "update");
    [ apply ty_eqb_sound in listed; rewrite listed; split; reflexivity | ].
  destruct (s_name s =? "paymentRequest");
    [ apply ty_eqb_sound in listed; rewrite listed; split; reflexivity | ].
  exact listed.
Qed.

Lemma card_tokenize_declared : method Card "tokenize" = Some card_tokenize.
Proof. reflexivity. Qed.

Lemma methods_return_promises_witness :
  In Card api_interfaces /\ In card_tokenize (own_methods Card) /\
  is_promise (s_returns card_tokenize) = true.
Proof.
  assert (Hd : In Card api_interfaces) by (vm_compute; tauto).
  assert (Hs : In card_tokenize (own_methods Card)) by (vm_compute; tauto).
  split; [ exact Hd | split; [ exact Hs | ] ].
  exact (methods_return_promises_unless_synchronous Card card_tokenize Hd Hs).
Defined.

(** ** Payment requests and the wallets *)

Lemma requests_go_to_wallets_only :
  forallb request_goes_to_wallets (own_methods Payments) = true.
Proof. vm_compute. reflexivity. Qed.

(** C10: a payment request is described by line items, a total and shipping
    options; [payments.paymentRequest] creates it from those options;
    [applePay] and [googlePay] take it as their one argument, and no other
    entry point of [Payments] -- [card], [ach] and [giftCard] among them --
    takes a payment request. *)
Theorem payment_requests_are_for_wallets :
  (property PaymentRequestOptions "lineItems"
     = Some (true, TArray (TRef "LineItem")) /\
   property PaymentRequestOptions "total" = Some (false, TRef "LineItem") /\
   property PaymentRequestOptions "shippingOptions"
     = Some (true, TArray (TRef "ShippingOption"))) /\
  (exists s, method Payments "paymentRequest" = Some s /\
             map p_type (s_params s) = [TRef "PaymentRequestOptions"] /\
             s_returns s = TRef "PaymentRequest") /\
  (forall w, w = "applePay" \/ w = "googlePay" ->
     exists s, method Payments w = Some s /\
               s_params s = [arg "paymentRequest" (TRef "PaymentRequest")]) /\
  (forall n, n = "card" \/ n = "ach" \/ n = "giftCard" ->
     exists s, method Payments n = Some s /\ takes s "PaymentRequest" = false) /\
  (forall s, In s (own_methods Payments) ->
     (takes s "PaymentRequest" = true <->
      s_name s = "applePay" \/ s_name s = "googlePay")).
Proof.
  split; [ repeat split | split; [ | split; [ | split ] ] ].
  - eexists. split; [ reflexivity | split; reflexivity ].
  - intros w [-> | ->]; eexists; split; reflexivity.
  - intros n [-> | [-> | ->]]; eexists; split; reflexivity.
  - intros s Hs.
    assert (ok : request_goes_to_wallets s = true).
    { revert s Hs. apply (checked_on_all request_goes_to_wallets);
        [ trivial | apply requests_go_to_wallets_only ]. }
    unfold request_goes_to_wallets, wallet_factory in ok.
    apply Bool.eqb_prop in ok. rewrite ok.
    rewrite orb_true_iff, !String.eqb_eq. tauto.
Qed.

(** ** The order of attach and tokenize *)

Lemma attach_order_checked :
  forallb attach_order_as_documented payment_methods = true.
Proof. vm_compute. reflexivity. Qed.

(** C2 as it is stated fails: [ApplePay] is a payment method whose
    [tokenize] resolves with a [TokenResult], and it declares no [attach]
    and no [configure] to call before, nor documents any attachment
    exception on [tokenize]. *)
Lemma apple_pay_tokenizes_without_attach :
  In ApplePay payment_methods /\
  tokenizes ApplePay = true /\
  declares ApplePay "attach" = false /\
  declares ApplePay "configure" = false /\
  documents ApplePay "tokenize" NotAttached = false.
Proof.
  split; [ vm_compute; tauto | ].
  repeat split.
Qed.

(** C2, amended: every payment method has a [tokenize] that resolves with a
    [TokenResult]; the order attach, configure, tokenize is documented for
    [Card] and [GiftCard] and for no other payment method: they alone
    declare [attach] and [configure] and document
    [PaymentMethodNotAttachedError] on [configure] and [tokenize]
    ([PaymentMethodAlreadyAttachedError] on [attach]).  [ApplePay] and [ACH]
    declare neither [attach] nor [configure]; [ERCPay] declares [attach] and
    no [configure]; and no payment method other than the two forms documents
    an attachment exception on [tokenize]. *)
Theorem attach_before_tokenize_is_documented_for_forms :
  forall d, In d payment_methods ->
    tokenizes d = true /\
    (documents_attach_first d = true <->
     decl_name d = "Card" \/ decl_name d = "GiftCard") /\
    (documents d "tokenize" NotAttached = true <->
     decl_name d = "Card" \/ decl_name d = "GiftCard") /\
    (decl_name d = "ApplePay" \/ decl_name d = "ACH" ->
     declares d "attach" = false /\ declares d "configure" = false) /\
    (decl_name d = "ERCPay" ->
     declares d "attach" = true /\ declares d "configure" = false).
Proof.
  intros d Hd.
  assert (ok : attach_order_as_documented d = true).
  { revert d Hd. apply (checked_on_all attach_order_as_documented);
      [ trivial | apply attach_order_checked ]. }
  unfold attach_order_as_documented in ok.
  apply andb_true_iff in ok as [ok button].
  apply andb_true_iff in ok as [ok sheet].
  apply andb_true_iff in ok as [ok on_tokenize].
  apply andb_true_iff in ok as [resolves first].
  apply Bool.eqb_prop in first, on_tokenize.
  assert (form : is_form d = true <->
                 decl_name d = "Card" \/ decl_name d = "GiftCard").
  { unfold is_form. rewrite orb_true_iff, !String.eqb_eq. tauto. }
  split; [ exact resolves | split; [ | split; [ | split ] ] ].
  - rewrite first. exact form.
  - rewrite on_tokenize. exact form.
  - intros named.
    assert (none : is_sheet d = true).
    { unfold is_sheet. rewrite orb_true_iff, !String.eqb_eq. tauto. }
    rewrite none in sheet. simpl in sheet.
    apply andb_true_iff in sheet as [a c].
    apply negb_true_iff in a, c. now split.
  - intros named.
    apply String.eqb_eq in named. rewrite named in button. simpl in button.
    apply andb_true_iff in button as [a c].
    apply negb_true_iff in c. now split.
Qed.

Lemma attach_before_tokenize_witness :
  In GiftCard payment_methods /\
  tokenizes GiftCard = true /\
  documents_attach_first GiftCard = true.
Proof.
  assert (Hd : In GiftCard payment_methods) by (vm_compute; tauto).
  destruct (attach_before_tokenize_is_documented_for_forms GiftCard Hd)
    as (resolves & first & _).
  split; [ exact Hd | split; [ exact resolves | ] ].
  apply first. right. reflexivity.
Defined.

(** ** The signature of [ACH.tokenize] *)


(* ================================================================== *)
(** * Properties of the typing of data *)
(* ================================================================== *)

Lemma conforms_S k v t : conforms (S k) v t = conforms_layer (conforms k) v t.
Proof. reflexivity. Qed.

Lemma interface_conforms k n d props :
  find_decl n = Some d -> is_interface d = true ->
  conforms (S k) (JObj props) (TRef n)
  = forallb (member_conforms (conforms k) false props)
            (members_of extends_depth d).
Proof.
  intros found iface. rewrite conforms_S. unfold conforms_layer.
  rewrite found. destruct d; try discriminate. reflexivity.
Qed.

(** Only an object conforms to an interface. *)
Lemma interface_conforms_inv k n d v :
  find_decl n = Some d -> is_interface d = true ->
  conforms (S k) v (TRef n) = true ->
  exists props,
    v = JObj props /\
    forall m, In m (members_of extends_depth d) ->
              member_conforms (conforms k) false props m = true.
Proof.
  intros found iface typed.
  rewrite conforms_S in typed. unfold conforms_layer in typed.
  rewrite found in typed.
  destruct d; try discriminate.
  unfold object_conforms in typed.
  destruct v; try discriminate.
  exists props. split; [ reflexivity | ].
  now rewrite forallb_forall in typed.
Qed.

Lemma enum_conforms_inv k n amb name values v :
  find_decl n = Some (Enum amb name values) ->
  conforms (S k) v (TRef n) = true ->
  exists s, v = JStr s /\ In s (map snd values).
Proof.
  intros found typed.
  rewrite conforms_S in typed. unfold conforms_layer in typed.
  rewrite found in typed.
  destruct v; try discriminate.
  exists s. split; [ reflexivity | ].
  simpl in typed. apply existsb_exists in typed as ([key value] & listed & same).
  apply String.eqb_eq in same. simpl in same. subst.
  apply in_map_iff. now exists (key, s).
Qed.

Lemma required_conforms check partial props n o ro ty :
  defined (get n props) = true ->
  check (get n props) ty = true ->
  member_conforms check partial props (Property n o ro ty) = true.
Proof.
  intros present typed. unfold member_conforms.
  destruct (get n props); try discriminate; exact typed.
Qed.

Lemma optional_conforms {A : Type} (f : A -> JsValue) (x : option A)
  check partial props n ro ty :
  get n props = optional f x ->
  (forall a, x = Some a -> defined (f a) = true /\ check (f a) ty = true) ->
  member_conforms check partial props (Property n true ro ty) = true.
Proof.
  intros given typed. unfold member_conforms. rewrite given.
  destruct x as [a | ]; simpl; [ | reflexivity ].
  destruct (typed a eq_refl) as [present ok].
  destruct (f a); try discriminate; exact ok.
Qed.

Lemma absent_conforms check partial props n ro ty :
  get n props = JUndefined ->
  member_conforms check partial props (Property n true ro ty) = true.
Proof. intros absent. unfold member_conforms. now rewrite absent. Qed.

Lemma array_conforms {A : Type} (f : A -> JsValue) (l : list A) k e :
  (forall a, In a l -> conforms k (f a) e = true) ->
  conforms (S k) (array f l) (TArray e) = true.
Proof.
  intros each. rewrite conforms_S. unfold conforms_layer, array.
  apply forallb_forall. intros v Hv.
  apply in_map_iff in Hv as (a & <- & Ha). now apply each.
Qed.

Lemma forallb_cons_true {A : Type} (f : A -> bool) (a : A) (l : list A) :
  f a = true -> forallb f l = true -> forallb f (a :: l) = true.
Proof. intros first others. simpl. now rewrite first. Qed.

Ltac each_member :=
  repeat lazymatch goal with
         | |- forallb _ (_ :: _) = true => apply forallb_cons_true
         | |- forallb _ [] = true => reflexivity
         end.
Ltac given_scalar := apply required_conforms; reflexivity.
Ltac optional_scalar f x :=
  apply (optional_conforms f x);
  [ reflexivity | intros ? _; split; reflexivity ].

(** ** Every record of [Shapes] is well typed *)

Lemma line_item_conforms k i :
  conforms (S (S k)) (js_line_item i) (TRef "LineItem") = true.
Proof.
  unfold js_line_item.
  rewrite (interface_conforms _ _ LineItem) by reflexivity.
  change (members_of extends_depth LineItem) with (own_members LineItem).
  cbn [own_members LineItem opt req].
  each_member.
  - given_scalar.
  - optional_scalar JStr (LineItem.id i).
  - optional_scalar JStr (LineItem.imageUrl i).
  - given_scalar.
  - optional_scalar JBool (LineItem.pending i).
  - optional_scalar JStr (LineItem.productUrl i).
Qed.

Lemma shipping_option_conforms k o :
  conforms (S (S k)) (js_shipping_option o) (TRef "ShippingOption") = true.
Proof.
  unfold js_shipping_option.
  rewrite (interface_conforms _ _ ShippingOption) by reflexivity.
  change (members_of extends_depth ShippingOption)
    with (own_members ShippingOption).
  cbn [own_members ShippingOption req].
  each_member; given_scalar.
Qed.

Lemma strings_conform k l : conforms (S (S k)) (array JStr l) (TArray TString) = true.
Proof. apply array_conforms. reflexivity. Qed.

Lemma shipping_contact_members :
  members_of extends_depth ShippingContact
  = (own_members ShippingContact ++ own_members Contact)%list.
Proof. reflexivity. Qed.

Lemma shipping_contact_conforms k c :
  conforms (S (S (S k))) (js_shipping_contact c) (TRef "ShippingContact") = true.
Proof.
  unfold js_shipping_contact, js_contact_props.
  rewrite (interface_conforms _ _ ShippingContact) by reflexivity.
  rewrite shipping_contact_members.
  cbn [own_members ShippingContact Contact opt app].
  each_member.
  - optional_scalar JStr (ShippingContact.email c).
  - optional_scalar JStr (ShippingContact.phone c).
  - optional_scalar JStr (Contact.givenName (ShippingContact.contact c)).
  - optional_scalar JStr (Contact.familyName (ShippingContact.contact c)).
  - apply (optional_conforms (array JStr)
             (Contact.addressLines (ShippingContact.contact c)));
      [ reflexivity | intros l _; split; [ reflexivity | apply strings_conform ] ].
  - optional_scalar JStr (Contact.city (ShippingContact.contact c)).
  - optional_scalar JStr (Contact.state (ShippingContact.contact c)).
  - optional_scalar JStr (Contact.postalCode (ShippingContact.contact c)).
  - optional_scalar JStr (Contact.countryCode (ShippingContact.contact c)).
Qed.

Lemma line_items_conform k l :
  conforms (S (S (S k))) (array js_line_item l) (TArray (TRef "LineItem")) = true.
Proof. apply array_conforms. intros i _. apply line_item_conforms. Qed.

Lemma shipping_options_conform k l :
  conforms (S (S (S k))) (array js_shipping_option l)
           (TArray (TRef "ShippingOption")) = true.
Proof. apply array_conforms. intros o _. apply shipping_option_conforms. Qed.

Lemma currency_conforms k c :
  conforms (S (S (S k))) (JStr (CurrencyCode.text c)) (TRef "CurrencyCodeValue")
  = true.
Proof. destruct c; reflexivity. Qed.

Ltac optional_items x :=
  apply (optional_conforms (array js_line_item) x);
  [ reflexivity | intros l _; split; [ reflexivity | apply line_items_conform ] ].

Lemma options_conform k o :
  conforms (S (S (S (S k)))) (js_options o) (TRef "PaymentRequestOptions") = true.
Proof.
  unfold js_options.
  rewrite (interface_conforms _ _ PaymentRequestOptions) by reflexivity.
  change (members_of extends_depth PaymentRequestOptions)
    with (own_members PaymentRequestOptions).
  cbn [own_members PaymentRequestOptions opt req].
  each_member.
  - given_scalar.
  - apply required_conforms; [ reflexivity | apply currency_conforms ].
  - optional_items (PaymentRequestOptions.discounts o).
  - optional_items (PaymentRequestOptions.lineItems o).
  - optional_scalar JBool (PaymentRequestOptions.requestBillingContact o).
  - optional_scalar JBool (PaymentRequestOptions.requestShippingContact o).
  - apply (optional_conforms js_shipping_contact
             (PaymentRequestOptions.shippingContact o));
      [ reflexivity
      | intros c _; split; [ reflexivity | apply shipping_contact_conforms ] ].
  - optional_items (PaymentRequestOptions.shippingLineItems o).
  - apply (optional_conforms (array js_shipping_option)
             (PaymentRequestOptions.shippingOptions o));
      [ reflexivity
      | intros l _; split; [ reflexivity | apply shipping_options_conform ] ].
  - optional_items (PaymentRequestOptions.taxLineItems o).
  - apply required_conforms; [ reflexivity | apply line_item_conforms ].
Qed.

Lemma token_error_conforms k e :
  conforms (S (S (S (S k)))) (js_token_error e) (TRef "TokenError") = true.
Proof.
  rewrite conforms_S. unfold conforms_layer.
  change (find_decl "TokenError") with (Some TokenError).
  cbn [TokenError].
  rewrite conforms_S. cbn [conforms_layer existsb].
  apply orb_true_intro. left.
  unfold js_token_error.
  rewrite (interface_conforms _ _ TokenErrorDetails) by reflexivity.
  change (members_of extends_depth TokenErrorDetails)
    with (own_members TokenErrorDetails).
  cbn [own_members TokenErrorDetails opt req].
  each_member.
  - given_scalar.
  - given_scalar.
  - optional_scalar JStr (TokenErrorDetails.field e).
Qed.

Lemma token_status_conforms k s :
  conforms (S k) (JStr (TokenStatus.text s)) (TRef "TokenStatus") = true.
Proof. destruct s; reflexivity. Qed.

Lemma token_result_conforms k status errors token :
  conforms (S (S (S (S (S (S k)))))) (js_token_result status errors token)
           (TRef "TokenResult") = true.
Proof.
  unfold js_token_result.
  rewrite (interface_conforms _ _ TokenResult) by reflexivity.
  change (members_of extends_depth TokenResult) with (own_members TokenResult).
  cbn [own_members TokenResult opt req].
  each_member.
  - apply required_conforms; [ reflexivity | apply token_status_conforms ].
  - apply (optional_conforms (array js_token_error) errors);
      [ reflexivity | intros l _; split; [ reflexivity | ] ].
    apply array_conforms. intros e _. apply token_error_conforms.
  - optional_scalar JStr token.
  - apply absent_conforms. reflexivity.
Qed.

(** ** The total and the line items *)

Lemma paymentRequest_declared :
  method Payments "paymentRequest" = Some paymentRequest_signature.
Proof. reflexivity. Qed.

(** C9: nothing in the repository enforces an invariant of the data shapes.
    Every well-typed options object is accepted by [paymentRequest], which
    documents no exception; every options record, whatever its amounts, is
    such an object; the documented example of a payment request, with a
    total of 1.00 beside line items that add up to 2.00, is accepted like
    the one whose total is the sum; a [PaymentRequestUpdate] with the same
    mismatch is well typed; and no declaration of the source has a body
    that could check. *)
Theorem no_invariant_of_the_total_is_enforced :
  (forall v, well_typed v "PaymentRequestOptions" = true ->
             accepts paymentRequest_signature [v] = true) /\
  (forall o : PaymentRequestOptions.t,
     well_typed (js_options o) "PaymentRequestOptions" = true /\
     accepts paymentRequest_signature [js_options o] = true) /\
  (method Payments "paymentRequest" = Some paymentRequest_signature /\
   documented_throws paymentRequest_signature = []) /\
  (total_is_sum documented_example = false /\
   accepts paymentRequest_signature [js_options documented_example] = true /\
   total_is_sum cat_and_dog = true /\
   accepts paymentRequest_signature [js_options cat_and_dog] = true) /\
  well_typed
    (JObj [ ("lineItems", array js_line_item [item "2.00" "Item Cost"]);
            ("total", js_line_item (item "1.00" "Total")) ])
    "PaymentRequestUpdate" = true /\
  forallb (fun m => forallb declaration_only (decls m)) source_modules = true.
Proof.
  assert (accepted : forall v, well_typed v "PaymentRequestOptions" = true ->
                               accepts paymentRequest_signature [v] = true).
  { intros v typed.
    unfold accepts, paymentRequest_signature.
    cbn [s_params arguments_conform arg p_type].
    unfold well_typed in typed. rewrite typed. reflexivity. }
  split; [ exact accepted | split; [ | split; [ | split; [ | split ] ] ] ].
  - intros o.
    assert (typed : well_typed (js_options o) "PaymentRequestOptions" = true)
      by apply options_conform.
    split; [ exact typed | now apply accepted ].
  - split; reflexivity.
  - repeat split; try reflexivity; apply accepted; apply options_conform.
  - reflexivity.
  - apply every_module_declares_only.
Qed.

(** ** Token results *)

Lemma member_conforms_inv check props n o ro ty :
  member_conforms check false props (Property n o ro ty) = true ->
  (get n props = JUndefined /\ o = true) \/
  (defined (get n props) = true /\ check (get n props) ty = true).
Proof.
  unfold member_conforms.
  destruct (get n props); intros typed;
    try (right; split; [ reflexivity | exact typed ]).
  left. split; [ reflexivity | ].
  now rewrite orb_false_r in typed.
Qed.

Lemma string_conforms_inv k v : conforms (S k) v TString = true -> exists s, v = JStr s.
Proof. destruct v; try discriminate. intros _. now exists s. Qed.

Lemma array_conforms_inv k v e :
  conforms (S k) v (TArray e) = true -> exists items, v = JArr items.
Proof. destruct v; try discriminate. intros _. now exists items. Qed.

(* ================================================================== *)
(** * Properties of the documented contract *)
(* ================================================================== *)

(** ** Attachment *)

Lemma call_alive d l m a s :
  l <> Destroyed -> method d m = Some s ->
  call d l m a =
  match violated s l with
  | Some e => Some (Threw e, l)
  | None =>
      match a with
      | Raises e => if may_raise s e then Some (Threw e, l) else None
      | Completes v =>
          if conforms typing_depth v (result_type s)
          then Some (Returned v, effect m l)
          else None
      end
  end.
Proof.
  intros alive declared. unfold call. rewrite declared.
  destruct l; [ reflexivity | reflexivity | contradiction ].
Qed.

(** A call ends in a precondition exception exactly when the state breaks
    that precondition of the method. *)
Lemma precondition_thrown_iff_violated d l m a s e :
  l <> Destroyed -> method d m = Some s -> is_precondition e = true ->
  (outcome (call d l m a) = Some (Threw e) <-> violated s l = Some e).
Proof.
  intros alive declared pre.
  rewrite (call_alive d l m a s alive declared).
  destruct (violated s l) as [e0 | ] eqn:broken.
  - cbn [outcome option_map fst].
    split; intros H; injection H as ->; reflexivity.
  - split; [ | discriminate ].
    destruct a as [v | e1].
    + destruct (conforms typing_depth v (result_type s));
        cbn [outcome option_map fst]; discriminate.
    + destruct (may_raise s e1) eqn:raised;
        cbn [outcome option_map fst]; [ | discriminate ].
      intros H. injection H as ->.
      unfold may_raise in raised. rewrite pre in raised. discriminate.
Qed.


Lemma attach_violated l s :
  documented_throws s = [AlreadyAttached; "UnexpectedError"] ->
  (violated s l = Some AlreadyAttached <-> is_attached l = true).
Proof.
  intros tags. unfold violated. rewrite tags.
  destruct l; simpl; split; congruence.
Qed.

Lemma use_violated l s :
  guards_use s = true ->
  (violated s l = Some NotAttached <-> is_attached l = false).
Proof.
  intros guarded. unfold guards_use in guarded.
  apply andb_true_iff in guarded as [listed other].
  apply negb_true_iff in other.
  unfold violated.
  split.
  - intros found. apply find_some in found as [_ broken].
    unfold precondition_violated in broken. simpl in broken.
    now apply negb_true_iff in broken.
  - intros unattached.
    destruct (find (fun e => precondition_violated e l) (documented_throws s))
      as [e | ] eqn:found.
    + apply find_some in found as [_ broken].
      unfold precondition_violated in broken.
      destruct (e =? AlreadyAttached) eqn:already.
      * rewrite unattached in broken. discriminate.
      * destruct (e =? NotAttached) eqn:same; [ | discriminate ].
        apply String.eqb_eq in same. now subst.
    + apply existsb_exists in listed as (x & Hx & same).
      apply String.eqb_eq in same. subst x.
      apply (find_none _ _ found) in Hx.
      unfold precondition_violated in Hx. simpl in Hx.
      rewrite unattached in Hx. discriminate.
Qed.

Lemma forms_are_guarded : form_is_guarded Card = true /\ form_is_guarded GiftCard = true.
Proof. split; reflexivity. Qed.

(** C1: on a form ([Card], [GiftCard]) that has not been destroyed, [attach]
    throws [PaymentMethodAlreadyAttachedError] exactly when the instance is
    attached already, and [configure] and [tokenize] throw
    [PaymentMethodNotAttachedError] exactly when it is not attached yet,
    whatever the runtime would answer otherwise. *)
Theorem attachment_exceptions_follow_the_state :
  forall d l a, d = Card \/ d = GiftCard -> l <> Destroyed ->
    (outcome (call d l "attach" a) = Some (Threw AlreadyAttached)
     <-> is_attached l = true) /\
    (outcome (call d l "configure" a) = Some (Threw NotAttached)
     <-> is_attached l = false) /\
    (outcome (call d l "tokenize" a) = Some (Threw NotAttached)
     <-> is_attached l = false).
Proof.
  intros d l a form alive.
  assert (guarded : form_is_guarded d = true)
    by (destruct form as [-> | ->]; apply forms_are_guarded).
  unfold form_is_guarded in guarded.
  destruct (method d "attach") as [sa | ] eqn:attach; [ | discriminate ].
  destruct (method d "configure") as [sc | ] eqn:configure; [ | discriminate ].
  destruct (method d "tokenize") as [st | ] eqn:tokenize; [ | discriminate ].
  apply andb_true_iff in guarded as [guarded on_tokenize].
  apply andb_true_iff in guarded as [on_attach on_configure].
  split; [ | split ].
  - rewrite (precondition_thrown_iff_violated d l "attach" a sa)
      by (assumption || reflexivity).
    apply attach_violated.
    destruct (documented_throws sa) as [ | e [ | e' [ | ] ] ]; try discriminate.
    apply andb_true_iff in on_attach as [first second].
    apply String.eqb_eq in first, second. now subst.
  - rewrite (precondition_thrown_iff_violated d l "configure" a sc)
      by (assumption || reflexivity).
    now apply use_violated.
  - rewrite (precondition_thrown_iff_violated d l "tokenize" a st)
      by (assumption || reflexivity).
    now apply use_violated.
Qed.

Lemma attachment_exceptions_witness :
  (Card = Card \/ Card = GiftCard) /\ Fresh <> Destroyed /\
  outcome (call Card Fresh "tokenize" (Completes (JObj [("status", JStr "OK")])))
  = Some (Threw NotAttached).
Proof.
  assert (form : Card = Card \/ Card = GiftCard) by (left; reflexivity).
  assert (alive : Fresh <> Destroyed) by discriminate.
  split; [ exact form | split; [ exact alive | ] ].
  apply (attachment_exceptions_follow_the_state Card Fresh _ form alive).
  reflexivity.
Defined.

(** ** Documented failures *)





(** ** The order of a session *)

(** Only an [attach] that completes attaches a fresh instance. *)
Lemma fresh_becomes_attached d m a o :
  call d Fresh m a = Some (o, Attached) ->
  m = "attach" /\ exists v, o = Returned v.
Proof.
  unfold call.
  destruct (method d m) as [s | ]; [ | discriminate ].
  destruct (violated s Fresh); [ discriminate | ].
  destruct a as [v | e].
  - destruct (conforms typing_depth v (result_type s)); [ | discriminate ].
    unfold effect.
    destruct (m =? "attach") eqn:attach.
    + apply String.eqb_eq in attach.
      intros H. injection H as <-. split; [ assumption | now exists v ].
    + destruct (m =? "destroy"); discriminate.
  - destruct (may_raise s e); discriminate.
Qed.

(** On an interface whose [tokenize] documents [NotAttached] -- [Card] and
    [GiftCard] -- a [tokenize] that yields a result was preceded, in the
    same session, by an [attach] that completed, unless the session began
    with an attached instance. *)
Lemma tokenize_resolves_after_attach d t :
  method d "tokenize" = Some t -> guards_use t = true ->
  forall calls l outs l' i a v,
    run d l calls = Some (outs, l') ->
    nth_error calls i = Some ("tokenize", a) ->
    nth_error outs i = Some (Returned v) ->
    l = Attached \/
    exists j a' v', j < i /\
                    nth_error calls j = Some ("attach", a') /\
                    nth_error outs j = Some (Returned v').
Proof.
  intros declared guarded.
  induction calls as [ | [m b] rest IH ]; intros l outs l' i a v ran called got.
  - destruct i; discriminate.
  - simpl in ran.
    destruct (call d l m b) as [[o l1] | ] eqn:step; [ | discriminate ].
    destruct (run d l1 rest) as [[os l2] | ] eqn:later; [ | discriminate ].
    injection ran as <- <-.
    destruct i as [ | i ].
    + simpl in called, got. injection called as -> ->. injection got as ->.
      left.
      destruct l as [ | | ]; [ | reflexivity | discriminate ].
      exfalso.
      assert (thrown : outcome (call d Fresh "tokenize" a)
                       = Some (Threw NotAttached)).
      { apply (precondition_thrown_iff_violated d Fresh "tokenize" a t);
          [ discriminate | assumption | reflexivity | ].
        now apply use_violated. }
      rewrite step in thrown. discriminate.
    + simpl in called, got.
      destruct (IH l1 os l2 i a v later called got)
        as [attached | (j & a' & v' & before & at_j & out_j)].
      * destruct l as [ | | ]; [ | now left | discriminate ].
        right. subst l1.
        apply fresh_becomes_attached in step as (-> & v' & ->).
        exists 0, b, v'. repeat split. lia.
      * right. exists (S j), a', v'. repeat split; [ lia | assumption .. ].
Qed.

(** On [Card] and [GiftCard], from a fresh instance: a [tokenize] that
    yields a result comes after an [attach] that completed. *)
Lemma form_tokenizes_after_attach d calls outs l' i a v :
  d = Card \/ d = GiftCard ->
  run d Fresh calls = Some (outs, l') ->
  nth_error calls i = Some ("tokenize", a) ->
  nth_error outs i = Some (Returned v) ->
  exists j a' v', j < i /\
                  nth_error calls j = Some ("attach", a') /\
                  nth_error outs j = Some (Returned v').
Proof.
  intros form ran called got.
  assert (guarded : exists t, method d "tokenize" = Some t /\
                              guards_use t = true).
  { destruct form as [-> | ->]; eexists; split; reflexivity. }
  destruct guarded as (t & declared & guarded).
  destruct (tokenize_resolves_after_attach d t declared guarded
              calls Fresh outs l' i a v ran called got)
    as [impossible | before]; [ discriminate | exact before ].
Qed.

(** A wallet's session needs no [attach]: [ApplePay] declares none, and its
    [tokenize] may yield a result on a fresh instance. *)
Lemma apple_pay_session :
  run ApplePay Fresh
      [ ("tokenize",
          Completes (js_token_result TokenStatus.OK None (Some "cnon:wallet"))) ]
  = Some ([ Returned (js_token_result TokenStatus.OK None (Some "cnon:wallet")) ],
          Fresh).
Proof. reflexivity. Qed.

(** The sessions of the documented examples: attach, then tokenize. *)
Lemma card_session :
  run Card Fresh
      [ ("attach", Completes JUndefined);
        ("tokenize",
          Completes (js_token_result TokenStatus.OK None (Some "cnon:card"))) ]
  = Some ([ Returned JUndefined;
            Returned (js_token_result TokenStatus.OK None (Some "cnon:card")) ],
          Attached).
Proof. reflexivity. Qed.

(** ** Updating a payment request *)

(** C5: [update] returns false whenever a payment sheet is on display, and
    then leaves the request as it was; it returns true only with the
    options updated, and options that changed mean it returned true. *)
Theorem update_is_refused_while_the_sheet_is_displayed :
  forall (valid : PaymentRequestOptions.t -> bool) (r : Request.t)
         (p : PartialOptions.t),
    (Request.sheet_displayed r = true ->
     update valid r p = (Returned (JBool false), r)) /\
    (fst (update valid r p) = Returned (JBool false) ->
     snd (update valid r p) = r) /\
    (fst (update valid r p) = Returned (JBool true) ->
     Request.options (snd (update valid r p)) = merge (Request.options r) p) /\
    (Request.options (snd (update valid r p)) <> Request.options r ->
     fst (update valid r p) = Returned (JBool true)).
Proof.
  intros valid r p. unfold update.
  destruct (Request.sheet_displayed r) eqn:sheet.
  - repeat split; simpl; try discriminate; try reflexivity.
    intros changed. now contradiction changed.
  - destruct (valid (merge (Request.options r) p)) eqn:ok; simpl.
    + repeat split; try discriminate; reflexivity.
    + repeat split; try discriminate.
      intros changed. now contradiction changed.
Qed.

(** A request that [paymentRequest] has just created shows no sheet: an
    update of it is applied or rejected as invalid, never refused. *)
Lemma new_request_is_updated valid o p :
  update valid (paymentRequest o) p
  = if valid (merge o p)
    then (Returned (JBool true), Request.mk (merge o p) false)
    else (Threw "InvalidPaymentRequestError", paymentRequest o).
Proof. reflexivity. Qed.

(** A property the update does not give keeps its value. *)
Lemma merge_keeps_what_is_not_given o p :
  PartialOptions.total p = None ->
  PartialOptions.lineItems p = None ->
  PaymentRequestOptions.total (merge o p) = PaymentRequestOptions.total o /\
  PaymentRequestOptions.lineItems (merge o p) = PaymentRequestOptions.lineItems o.
Proof. intros no_total no_items. simpl. now rewrite no_total, no_items. Qed.

(** ** Locales *)

Lemma language_region_determine_tag a :
  forall b, language a = language b -> region a = region b -> a = b.
Proof.
  induction a as [ | c a IH ]; intros [ | c' b ]; simpl.
  - reflexivity.
  - destruct (c' =? "-")%char; discriminate.
  - destruct (c =? "-")%char; discriminate.
  - destruct (Ascii.eqb_spec c "-"%char) as [-> | plain];
      destruct (Ascii.eqb_spec c' "-"%char) as [-> | plain'];
      try discriminate.
    + intros _ same. injection same as ->. reflexivity.
    + intros same_language same_region.
      injection same_language as -> tail.
      f_equal. now apply IH.
Qed.

Lemma unsupported_language_is_unsupported_locale supported tag :
  language_supported supported tag = false ->
  locale_supported supported tag = false /\
  find (same_language tag) supported = None.
Proof.
  intros none. unfold language_supported in none.
  split.
  - unfold locale_supported.
    destruct (existsb (String.eqb tag) supported) eqn:listed; [ | reflexivity ].
    apply existsb_exists in listed as (x & Hx & same).
    apply String.eqb_eq in same. subst x.
    assert (found : existsb (same_language tag) supported = true).
    { apply existsb_exists. exists tag. split; [ assumption | ].
      unfold same_language. apply String.eqb_refl. }
    rewrite found in none. discriminate.
  - destruct (find (same_language tag) supported) as [x | ] eqn:found;
      [ | reflexivity ].
    apply find_some in found as [Hx same].
    assert (listed : existsb (same_language tag) supported = true)
      by (apply existsb_exists; now exists x).
    rewrite listed in none. discriminate.
Qed.

(** C7: when the language of the requested locale is not supported,
    [setLocale] is a no-op: the locale of the SDK stays and the result has
    [newLocale] equal to [previousLocale]; when the language is supported
    and the requested locale is not, the new locale is a supported one of
    the requested language with another region. *)
Theorem setLocale_keeps_or_falls_back :
  forall supported note current healthy requested result after,
    setLocale supported note current healthy requested = (inl result, after) ->
    SetLocaleResult.previousLocale result = current /\
    SetLocaleResult.newLocale result = after /\
    (language_supported supported requested = false ->
     after = current /\
     SetLocaleResult.newLocale result = SetLocaleResult.previousLocale result) /\
    (language_supported supported requested = true ->
     locale_supported supported requested = false ->
     In after supported /\
     language after = language requested /\
     region after <> region requested).
Proof.
  intros supported note current healthy requested result after.
  unfold setLocale.
  destruct healthy; [ | discriminate ].
  intros H. injection H as <- <-. simpl.
  split; [ reflexivity | split; [ reflexivity | split ] ].
  - intros none.
    apply unsupported_language_is_unsupported_locale in none as [unlisted unfound].
    unfold choose. rewrite unlisted, unfound. split; reflexivity.
  - intros some unlisted.
    unfold choose. rewrite unlisted.
    destruct (find (same_language requested) supported)
      as [fallback | ] eqn:found.
    + apply find_some in found as [listed same].
      unfold same_language in same. apply String.eqb_eq in same.
      split; [ assumption | split; [ assumption | ] ].
      intros same_region.
      assert (fallback = requested)
        by now apply language_region_determine_tag.
      subst fallback.
      assert (relisted : locale_supported supported requested = true).
      { unfold locale_supported. apply existsb_exists.
        exists requested. split; [ assumption | apply String.eqb_refl ]. }
      rewrite relisted in unlisted. discriminate.
    + unfold language_supported in some.
      apply existsb_exists in some as (x & Hx & same).
      apply (find_none _ _ found) in Hx. rewrite Hx in same. discriminate.
Qed.

Lemma setLocale_witness :
  setLocale ["en-US"; "en-CA"; "fr-FR"] None "en-US" true "fr-CA"
  = (inl (SetLocaleResult.mk "en-US" "fr-FR" None), "fr-FR") /\
  region "fr-FR" <> region "fr-CA".
Proof.
  assert (ran : setLocale ["en-US"; "en-CA"; "fr-FR"] None "en-US" true "fr-CA"
                = (inl (SetLocaleResult.mk "en-US" "fr-FR" None), "fr-FR"))
    by reflexivity.
  split; [ exact ran | ].
  destruct (setLocale_keeps_or_falls_back _ _ _ _ _ _ _ ran)
    as (_ & _ & _ & fallback).
  apply fallback; reflexivity.
Defined.

(* ================================================================== *)
(** * Properties of names and scope *)
(* ================================================================== *)

Lemma named_in_In n l : named_in n l = true <-> In n l.
Proof.
  unfold named_in. rewrite existsb_exists. split.
  - intros (x & Hx & same). apply String.eqb_eq in same. now subst.
  - intros Hn. exists n. split; [ exact Hn | apply String.eqb_refl ].
Qed.

Lemma declared_in_module m d :
  In m source_modules -> In d (decls m) -> In d declarations.
Proof.
  intros Hm Hd. unfold declarations. apply in_flat_map. now exists m.
Qed.

Lemma every_module_is_closed :
  forallb (fun m => forallb (in_scope m) (references m)) source_modules = true.
Proof. vm_compute. reflexivity. Qed.

(** X1: every type name that a declaration of a module refers to is
    declared in that module, imported by it, or one of the types of the
    language and the browser ([HTMLElement], [Error], [Promise],
    [Partial]): no module of the source refers to a name it has not in
    scope. *)
Theorem references_are_in_scope :
  forall m n, In m source_modules -> In n (references m) ->
    In n (declared_names m) \/ In n (imported_names m) \/ In n builtins.
Proof.
  intros m n Hm Hn.
  assert (scoped : in_scope m n = true).
  { revert n Hn. apply (checked_on_all (in_scope m)); [ trivial | ].
    revert m Hm.
    apply (checked_on_all (fun m => forallb (in_scope m) (references m)));
      [ trivial | apply every_module_is_closed ]. }
  unfold in_scope in scoped.
  apply orb_true_iff in scoped as [scoped | scoped];
    [ apply orb_true_iff in scoped as [scoped | scoped] | ];
    apply named_in_In in scoped; tauto.
Qed.

Lemma references_are_in_scope_witness :
  In payment_method_types source_modules /\
  In "ShippingContact" (references payment_method_types) /\
  (In "ShippingContact" (declared_names payment_method_types) \/
   In "ShippingContact" (imported_names payment_method_types) \/
   In "ShippingContact" builtins).
Proof.
  assert (Hm : In payment_method_types source_modules) by (vm_compute; tauto).
  assert (Hn : In "ShippingContact" (references payment_method_types))
    by (apply named_in_In; vm_compute; reflexivity).
  split; [ exact Hm | split; [ exact Hn | ] ].
  exact (references_are_in_scope payment_method_types "ShippingContact" Hm Hn).
Defined.

Lemma every_import_is_referenced :
  forallb (fun m => forallb (fun n => named_in n (references m))
                            (imported_names m)) source_modules = true.
Proof. vm_compute. reflexivity. Qed.

(** X2: every name that a module imports is used by one of its
    declarations: the source has no import that is left unused. *)
Theorem imports_are_used :
  forall m i n, In m source_modules -> In i (imports m) -> In n (imported i) ->
    exists d, In d (decls m) /\ In n (decl_refs d).
Proof.
  intros m i n Hm Hi Hn.
  assert (used : named_in n (references m) = true).
  { assert (Himp : In n (imported_names m))
      by (unfold imported_names; apply in_flat_map; now exists i).
    clear Hn. revert n Himp.
    apply (checked_on_all (fun n => named_in n (references m))); [ trivial | ].
    clear Hi. revert m Hm.
    apply (checked_on_all
             (fun m => forallb (fun n => named_in n (references m))
                               (imported_names m)));
      [ trivial | apply every_import_is_referenced ]. }
  apply named_in_In in used. unfold references in used.
  now apply in_flat_map in used.
Qed.

Lemma imports_are_used_witness :
  In ach_method source_modules /\
  In (mkImport ["AchTokenOptions"; "PaymentMethod"; "SqEvent"; "TokenResult"]
               "../payment-method-types") (imports ach_method) /\
  exists d, In d (decls ach_method) /\ In "SqEvent" (decl_refs d).
Proof.
  assert (Hm : In ach_method source_modules) by (vm_compute; tauto).
  assert (Hi : In (mkImport ["AchTokenOptions"; "PaymentMethod"; "SqEvent";
                             "TokenResult"] "../payment-method-types")
                  (imports ach_method)) by (simpl; auto).
  split; [ exact Hm | split; [ exact Hi | ] ].
  apply (imports_are_used ach_method _ "SqEvent" Hm Hi).
  simpl. auto.
Defined.

(** ** Exports *)

Lemma exports_checked :
  forallb (fun m =>
             forallb (fun n => named_in n (declared_names m)) (exports m) &&
             forallb (fun d =>
                        Bool.eqb (named_in (decl_name d) (exports m))
                                 (negb (named_in (decl_name d)
                                          [ "BaseVerifyBuyerDetails"; "Contact";
                                            "TokenErrorDetails" ])))
                     (decls m))
          source_modules = true.
Proof. vm_compute. reflexivity. Qed.

(** X3: a module exports only what it declares itself, and it exports all
    of its declarations but three: [BaseVerifyBuyerDetails], [Contact] and
    [TokenErrorDetails] stay private to their modules (they are reached
    through [ChargeVerifyBuyerDetails] and [StoreVerifyBuyerDetails],
    [BillingContact] and [ShippingContact], and [TokenError]). *)
Theorem exports_are_own_declarations :
  forall m, In m source_modules ->
    (forall n, In n (exports m) -> In n (declared_names m)) /\
    (forall d, In d (decls m) ->
       (In (decl_name d) (exports m) <->
        ~ In (decl_name d)
             ["BaseVerifyBuyerDetails"; "Contact"; "TokenErrorDetails"])).
Proof.
  intros m Hm.
  pose proof exports_checked as checked.
  rewrite forallb_forall in checked. specialize (checked m Hm).
  cbv beta in checked.
  apply andb_true_iff in checked as [own all].
  rewrite forallb_forall in own, all.
  split.
  - intros n Hn. apply named_in_In. now apply own.
  - intros d Hd. specialize (all d Hd). apply Bool.eqb_prop in all.
    rewrite <- named_in_In, all, negb_true_iff, <- not_true_iff_false.
    now rewrite named_in_In.
Qed.

Lemma exports_are_own_declarations_witness :
  In contact source_modules /\
  (forall n, In n (exports contact) -> In n (declared_names contact)).
Proof.
  assert (Hm : In contact source_modules) by (vm_compute; tauto).
  split; [ exact Hm | ].
  exact (proj1 (exports_are_own_declarations contact Hm)).
Defined.

Lemma imports_checked :
  forallb (fun m =>
             forallb (fun n =>
                        match find_decl n with
                        | None => true
                        | Some _ =>
                            match exporter n with
                            | Some m' => negb (path m' =? path m)
                            | None => false
                            end
                        end) (imported_names m))
          source_modules = true.
Proof. vm_compute. reflexivity. Qed.

(** X4: when a module imports a name that the source declares, another
    module of the source declares that name and exports it: no import
    reaches for one of the private declarations, and no module imports from
    itself.  (The other imported names, such as [CardOptions] or [SqError],
    belong to modules of the package that the source does not hold.) *)
Theorem imported_declarations_are_exported :
  forall m n d, In m source_modules -> In n (imported_names m) ->
    find_decl n = Some d ->
    exists m', exporter n = Some m' /\
               In m' source_modules /\ path m' <> path m /\
               In d (decls m') /\ In n (exports m').
Proof.
  intros m n d Hm Hn found.
  pose proof imports_checked as checked.
  rewrite forallb_forall in checked. specialize (checked m Hm).
  cbv beta in checked.
  rewrite forallb_forall in checked. specialize (checked n Hn).
  cbv beta in checked.
  rewrite found in checked.
  destruct (exporter n) as [m' | ] eqn:exported; [ | discriminate ].
  exists m'. split; [ reflexivity | ].
  unfold exporter in exported. apply find_some in exported as [Hm' both].
  apply andb_true_iff in both as [declared exported].
  apply named_in_In in declared, exported.
  split; [ exact Hm' | split; [ | split; [ | exact exported ] ] ].
  - apply negb_true_iff, String.eqb_neq in checked. exact checked.
  - unfold declared_names in declared.
    apply in_map_iff in declared as (d' & named & Hd').
    assert (found' : find_decl (decl_name d') = Some d').
    { apply declarations_are_distinct. now apply (declared_in_module m'). }
    rewrite named, found in found'. now injection found' as ->.
Qed.

Lemma imported_declarations_are_exported_witness :
  In payment_request source_modules /\
  In "PaymentRequestOptions" (imported_names payment_request) /\
  exists m', exporter "PaymentRequestOptions" = Some m' /\
             In m' source_modules /\ path m' <> path payment_request /\
             In PaymentRequestOptions (decls m') /\
             In "PaymentRequestOptions" (exports m').
Proof.
  assert (Hm : In payment_request source_modules) by (vm_compute; tauto).
  assert (Hn : In "PaymentRequestOptions" (imported_names payment_request))
    by (simpl; auto).
  split; [ exact Hm | split; [ exact Hn | ] ].
  exact (imported_declarations_are_exported payment_request
           "PaymentRequestOptions" PaymentRequestOptions Hm Hn eq_refl).
Defined.

(* ================================================================== *)
(** * Properties of inheritance *)
(* ================================================================== *)

Lemma declared_is_found d : In d declarations -> find_decl (decl_name d) = Some d.
Proof. apply declarations_are_distinct. Qed.

Lemma parents_are_roots_checked :
  forallb (fun d =>
             forallb (fun p => match find_decl p with
                               | Some pd => match parents pd with
                                            | [] => is_interface pd
                                            | _ :: _ => false
                                            end
                               | None => true
                               end) (parents d))
          declarations = true.
Proof. vm_compute. reflexivity. Qed.

Lemma parents_are_roots d p pd :
  In d declarations -> In p (parents d) -> find_decl p = Some pd ->
  parents pd = [] /\ is_interface pd = true.
Proof.
  intros Hd Hp found.
  pose proof parents_are_roots_checked as checked.
  rewrite forallb_forall in checked. specialize (checked d Hd).
  cbv beta in checked.
  rewrite forallb_forall in checked. specialize (checked p Hp).
  cbv beta in checked. rewrite found in checked.
  destruct (parents pd); [ now split | discriminate ].
Qed.

Lemma members_of_root k d : parents d = [] -> members_of k d = own_members d.
Proof.
  intros root. destruct k; [ reflexivity | ].
  cbn [members_of]. rewrite root. cbn [flat_map filter].
  apply app_nil_r.
Qed.

Lemma flat_map_agree {A B : Type} (f g : A -> list B) (l : list A) :
  (forall a, In a l -> f a = g a) -> flat_map f l = flat_map g l.
Proof.
  induction l as [ | a l IH]; intros same; [ reflexivity | ].
  cbn [flat_map]. rewrite (same a (or_introl eq_refl)), IH; [ reflexivity | ].
  intros b Hb. apply same. now right.
Qed.

(** X5: no interface of the source extends an interface that extends
    another one, and what an interface extends is an interface: one step
    along [extends] reaches every member that is inherited, so the members
    of a declaration do not depend on how far the chain is followed. *)
Theorem members_of_follows_every_parent :
  forall d, In d declarations ->
    (forall p pd, In p (parents d) -> find_decl p = Some pd ->
                  parents pd = [] /\ is_interface pd = true) /\
    (forall k, members_of (S k) d = members_of extends_depth d) /\
    members_of extends_depth d
    = (own_members d ++
       filter (fun m => negb (existsb (same_name m) (own_members d)))
         (flat_map (fun p => match find_decl p with
                             | Some pd => own_members pd
                             | None => []
                             end) (parents d)))%list.
Proof.
  intros d Hd.
  assert (step : forall k,
             members_of (S k) d
             = (own_members d ++
                filter (fun m => negb (existsb (same_name m) (own_members d)))
                  (flat_map (fun p => match find_decl p with
                                      | Some pd => own_members pd
                                      | None => []
                                      end) (parents d)))%list).
  { intros k. cbn [members_of]. f_equal. f_equal.
    apply flat_map_agree. intros p Hp.
    destruct (find_decl p) as [pd | ] eqn:found; [ | reflexivity ].
    apply members_of_root. now apply (parents_are_roots d p pd). }
  split; [ | split ].
  - intros p pd. now apply parents_are_roots.
  - intros k. unfold extends_depth. now rewrite !step.
  - apply step.
Qed.

Lemma members_of_follows_every_parent_witness :
  In ShippingContact declarations /\
  members_of 1 ShippingContact = members_of extends_depth ShippingContact.
Proof.
  assert (Hd : In ShippingContact declarations) by (vm_compute; tauto).
  split; [ exact Hd | ].
  exact (proj1 (proj2 (members_of_follows_every_parent ShippingContact Hd)) 0).
Defined.

(** X6: an heir offers every member it inherits.  An inherited property is
    never declared again: the heir has it as the parent declares it.  An
    inherited method that the heir declares again keeps its number of
    parameters, and returns the type the parent gives or a promise of one of
    the alternatives of the parent's promise (as [destroy], a promise of
    [boolean | void] in [PaymentMethod], is a promise of [boolean] in [Card]
    and of [void] in [ACH]). *)
Theorem heirs_keep_what_they_inherit :
  forall d m, In d declarations -> In m (inherited_members d) ->
    match m with
    | Property n _ _ _ => member_named d n = Some m
    | Method n ps r _ _ =>
        exists ps' r' th,
          member_named d n = Some (Method n ps' r' th false) /\
          length ps' = length ps /\
          (r' = r \/
           exists alts a, r = TPromise (TUnion alts) /\ In a alts /\
                          r' = TPromise a)
    | CallSignature _ _ | Constructor _ _ => False
    end.
Proof.
  intros d m Hd Hm.
  unfold declarations, source_modules in Hd. simpl in Hd.
  repeat (destruct Hd as [<- | Hd];
          [ vm_compute in Hm;
            repeat (destruct Hm as [<- | Hm];
                    [ first
                        [ reflexivity
                        | do 3 eexists;
                          split; [ vm_compute; reflexivity | ];
                          split; [ reflexivity | ];
                          first
                            [ left; reflexivity
                            | right; do 2 eexists;
                              split; [ reflexivity | ];
                              apply and_comm;
                              split; [ reflexivity | simpl; auto ] ] ]
                    | ]);
            contradiction
          | ]).
  contradiction.
Qed.

Lemma heirs_keep_what_they_inherit_witness :
  In Card declarations /\
  In (sig "destroy" [] (TPromise (TUnion [TBoolean; TVoid])) [])
     (inherited_members Card) /\
  exists ps' r' th,
    member_named Card "destroy" = Some (Method "destroy" ps' r' th false) /\
    length ps' = length (@nil Param) /\
    (r' = TPromise (TUnion [TBoolean; TVoid]) \/
     exists alts a, TPromise (TUnion [TBoolean; TVoid]) = TPromise (TUnion alts) /\
                    In a alts /\ r' = TPromise a).
Proof.
  assert (Hd : In Card declarations) by (vm_compute; tauto).
  assert (Hm : In (sig "destroy" [] (TPromise (TUnion [TBoolean; TVoid])) [])
                  (inherited_members Card)) by (vm_compute; tauto).
  split; [ exact Hd | split; [ exact Hm | ] ].
  exact (heirs_keep_what_they_inherit Card _ Hd Hm).
Defined.

(** ** Typing along [extends] *)

Lemma covers_sound m' m check props :
  covers m' m = true ->
  member_conforms check false props m' = true ->
  member_conforms check false props m = true.
Proof.
  destruct m' as [n' o' r' t' | n' ps' rt' th' b' | | ];
    destruct m as [n o r t | n ps rt th b | | ]; try discriminate;
    cbn [covers]; intros same.
  - apply andb_true_iff in same as [same types].
    apply andb_true_iff in same as [names optional].
    apply String.eqb_eq in names. apply ty_eqb_sound in types. subst.
    unfold member_conforms. destruct (get n props); trivial.
    rewrite !orb_false_r. intros ->. exact optional.
  - apply String.eqb_eq in same. subst. trivial.
Qed.

Lemma heirs_cover_checked :
  forallb (fun d =>
             forallb (fun m => existsb (fun m' => covers m' m)
                                       (members_of extends_depth d))
                     (inherited_members d))
          declarations = true.
Proof. vm_compute. reflexivity. Qed.

(** X7: typing follows [extends].  A value that has the type of an
    interface has the type of each interface it extends: a [ShippingContact]
    is a [Contact], the details of a charge or of a store are
    [BaseVerifyBuyerDetails], and an object with the methods of a [Card] is a
    [PaymentMethod]. *)
Theorem typing_follows_extends :
  forall d p pd k v,
    In d declarations -> In p (parents d) -> find_decl p = Some pd ->
    conforms (S k) v (TRef (decl_name d)) = true ->
    conforms (S k) v (TRef p) = true.
Proof.
  intros d p pd k v Hd Hp found typed.
  destruct (parents_are_roots d p pd Hd Hp found) as [_ iface].
  pose proof heirs_cover_checked as covered.
  rewrite forallb_forall in covered. specialize (covered d Hd).
  cbv beta in covered. rewrite forallb_forall in covered.
  rewrite conforms_S in typed |- *. unfold conforms_layer in typed |- *.
  rewrite (declared_is_found d Hd) in typed. rewrite found.
  destruct d as [n ext ms | n b | amb n vs | amb n tp ext ms | amb n ps r | amb n t];
    try contradiction; cbv beta iota in typed;
    unfold object_conforms in typed; try discriminate.
  destruct v as [ | | | | | | props | ]; try discriminate.
  destruct pd; try discriminate. unfold object_conforms.
  rewrite forallb_forall in typed |- *.
  intros m Hm.
  assert (inherited : In m (inherited_members (Interface n ext ms))).
  { unfold inherited_members. apply in_flat_map. exists p.
    split; [ exact Hp | now rewrite found ]. }
  apply covered, existsb_exists in inherited as (m' & Hm' & same).
  apply (covers_sound m' m); [ exact same | now apply typed ].
Qed.

Lemma typing_follows_extends_witness :
  In ShippingContact declarations /\
  conforms 3 (JObj [("email", JStr "a@b.c"); ("city", JStr "Leeds")])
           (TRef "ShippingContact") = true /\
  conforms 3 (JObj [("email", JStr "a@b.c"); ("city", JStr "Leeds")])
           (TRef "Contact") = true.
Proof.
  assert (Hd : In ShippingContact declarations) by (vm_compute; tauto).
  assert (typed : conforms 3 (JObj [("email", JStr "a@b.c"); ("city", JStr "Leeds")])
                    (TRef (decl_name ShippingContact)) = true)
    by (vm_compute; reflexivity).
  split; [ exact Hd | split; [ exact typed | ] ].
  apply (typing_follows_extends ShippingContact "Contact" Contact 2 _ Hd);
    [ simpl; auto | reflexivity | exact typed ].
Defined.

(* ================================================================== *)
(** * Properties of the entry points and the listeners *)
(* ================================================================== *)

Lemma payment_methods_listed :
  payment_methods = [ERCPay; Card; GiftCard; ACH; ApplePay].
Proof. reflexivity. Qed.

Lemma api_interfaces_listed :
  api_interfaces
  = [ERCPay; Card; PaymentRequest; Payments; GiftCard; ACH; ApplePay;
     PaymentMethod].
Proof. reflexivity. Qed.

(** X8: what [Payments] hands out.  The declarations of the source that
    the return type of a method of [Payments] names, anywhere in the type,
    are payment methods, each under a promise of its own ([card], [giftCard],
    [ach], [applePay]), and three more: [SetLocaleResult] in [setLocale],
    [VerifyBuyerResponseDetails] in [verifyBuyer] and [PaymentRequest] in
    [paymentRequest].  [Payments] has such a method for every payment method
    of the source but one: no return type of [Payments] names [ERCPay]. *)
Theorem payments_creates_every_method_but_one :
  (forall s r d, In s (own_methods Payments) ->
     In r (type_names (s_returns s)) -> find_decl r = Some d ->
     (is_payment_method d = true /\ factory d = Some s /\
      s_returns s = TPromise (TRef r)) \/
     (s_name s = "setLocale" /\ d = SetLocaleResult) \/
     (s_name s = "verifyBuyer" /\ d = VerifyBuyerResponseDetails) \/
     (s_name s = "paymentRequest" /\ d = PaymentRequest)) /\
  (forall d, In d payment_methods ->
     match factory d with
     | Some s => In s (own_methods Payments) /\
                 s_returns s = TPromise (TRef (decl_name d)) /\
                 decl_name d <> "ERCPay"
     | None => d = ERCPay /\
               forall s, In s (own_methods Payments) ->
                         ~ In "ERCPay" (type_names (s_returns s))
     end).
Proof.
  split.
  - intros s r d Hs named found.
    cbn in Hs.
    repeat (destruct Hs as [<- | Hs];
            [ cbn in named;
              repeat (destruct named as [<- | named];
                      [ vm_compute in found; try discriminate found;
                        injection found as <-;
                        first [ left; repeat split; reflexivity
                              | right; left; split; reflexivity
                              | right; right; left; split; reflexivity
                              | right; right; right; split; reflexivity ]
                      | ]);
              contradiction
            | ]).
    contradiction.
  - intros d Hd. rewrite payment_methods_listed in Hd. simpl in Hd.
    destruct Hd as [<- | Hd].
    + split; [ reflexivity | ].
      intros s Hs named. cbn in Hs.
      repeat (destruct Hs as [<- | Hs];
              [ cbn in named;
                repeat (destruct named as [named | named];
                        [ discriminate named | ]);
                contradiction
              | ]).
      contradiction.
    + repeat (destruct Hd as [<- | Hd];
              [ vm_compute; split; [ tauto | split; [ reflexivity | discriminate ] ]
              | ]).
      contradiction.
Qed.

Lemma payments_creates_every_method_but_one_witness :
  In ACH payment_methods /\
  match factory ACH with
  | Some s => In s (own_methods Payments) /\
              s_returns s = TPromise (TRef (decl_name ACH)) /\
              decl_name ACH <> "ERCPay"
  | None => ACH = ERCPay /\
            forall s, In s (own_methods Payments) ->
                      ~ In "ERCPay" (type_names (s_returns s))
  end.
Proof.
  assert (Hd : In ACH payment_methods) by (vm_compute; tauto).
  split; [ exact Hd | ].
  exact (proj2 payments_creates_every_method_but_one ACH Hd).
Defined.

(** X9: listeners.  Wherever [addEventListener] is offered it takes two
    parameters and returns [void], and [removeEventListener] is offered with
    the same parameters, except on a [PaymentRequest]: it declares
    [addEventListener] only, so a listener of a payment request cannot be
    removed. *)
Theorem listeners_are_removed_as_they_are_added :
  forall d a, In d api_interfaces -> method d "addEventListener" = Some a ->
    length (s_params a) = 2 /\ s_returns a = TVoid /\
    match method d "removeEventListener" with
    | Some r => s_params r = s_params a /\ s_returns r = TVoid
    | None => d = PaymentRequest
    end.
Proof.
  intros d a Hd added. rewrite api_interfaces_listed in Hd. simpl in Hd.
  repeat (destruct Hd as [<- | Hd];
          [ vm_compute in added; try discriminate added;
            injection added as <-;
            vm_compute; repeat split
          | ]).
  contradiction.
Qed.

Lemma listeners_are_removed_as_they_are_added_witness :
  In PaymentRequest api_interfaces /\
  method PaymentRequest "removeEventListener" = None /\
  length [ arg "event" (TRef "PaymentRequestEventValue");
           arg "callback" (TRef "PaymentRequestCallback") ] = 2.
Proof.
  assert (Hd : In PaymentRequest api_interfaces) by (vm_compute; tauto).
  split; [ exact Hd | split; [ reflexivity | ] ].
  exact (proj1 (listeners_are_removed_as_they_are_added PaymentRequest _ Hd
                  eq_refl)).
Defined.

(* ================================================================== *)
(** * Properties of the documented exceptions *)
(* ================================================================== *)

Lemma included l l' :
  forallb (fun n => named_in n l') l = true -> forall n, In n l -> In n l'.
Proof.
  intros all n Hn. rewrite forallb_forall in all.
  apply named_in_In. now apply all.
Qed.

Lemma declared_exceptions_checked :
  forallb (fun e => match find_decl e with
                    | Some d =>
                        is_error_class d &&
                        named_in e ["InvalidFieldNameError"; "ScriptLoaderError"]
                    | None =>
                        negb (named_in e ["InvalidFieldNameError";
                                          "ScriptLoaderError"])
                    end)
          documented_exceptions = true.
Proof. vm_compute. reflexivity. Qed.

Lemma documented_classes_checked :
  forallb (fun d => implb (is_error_class d)
                          (Bool.eqb (named_in (decl_name d) documented_exceptions)
                                    (named_in (decl_name d)
                                       ["InvalidFieldNameError";
                                        "ScriptLoaderError"])))
          declarations = true.
Proof. vm_compute. reflexivity. Qed.

(** X10: the [@throws] tags of the source name eleven exceptions.  Two of
    them are classes that the source declares, [InvalidFieldNameError] and
    [ScriptLoaderError]; the other nine are declared nowhere in the source.
    Of the four error classes that the source declares, the other two,
    [InvalidConfigurationPropertyError] and [InvalidConfigurationValueError],
    are named by no tag. *)
Theorem documented_exceptions_and_declared_classes :
  (forall e, In e documented_exceptions <->
             In e [ "PaymentMethodUnsupportedError"; "InvalidFieldNameError";
                    "VerifyBuyerError"; "InvalidPaymentRequestError";
                    "ScriptLoaderError"; "PaymentMethodAlreadyAttachedError";
                    "PaymentMethodNotAttachedError"; "PlaidUninitializedError";
                    "PlaidMissingNameError"; "UnexpectedError";
                    "TokenizationError" ]) /\
  (forall e, In e documented_exceptions ->
     ((exists d, find_decl e = Some d /\ is_error_class d = true) <->
      e = "InvalidFieldNameError" \/ e = "ScriptLoaderError") /\
     (find_decl e = None <->
      ~ (e = "InvalidFieldNameError" \/ e = "ScriptLoaderError"))) /\
  (forall d, In d declarations -> is_error_class d = true ->
     (In (decl_name d) documented_exceptions <->
      decl_name d = "InvalidFieldNameError" \/
      decl_name d = "ScriptLoaderError")) /\
  map decl_name (filter is_error_class declarations)
  = [ "InvalidFieldNameError"; "InvalidConfigurationPropertyError";
      "InvalidConfigurationValueError"; "ScriptLoaderError" ].
Proof.
  assert (two : forall e,
             named_in e ["InvalidFieldNameError"; "ScriptLoaderError"] = true <->
             e = "InvalidFieldNameError" \/ e = "ScriptLoaderError").
  { intros e. rewrite named_in_In. simpl. intuition. }
  split; [ | split; [ | split; [ | reflexivity ] ] ].
  - intros e. split; apply included; vm_compute; reflexivity.
  - intros e He.
    pose proof declared_exceptions_checked as checked.
    rewrite forallb_forall in checked. specialize (checked e He).
    cbv beta in checked. rewrite <- two.
    destruct (find_decl e) as [d | ] eqn:found.
    + apply andb_true_iff in checked as [class named].
      split; split; trivial; try discriminate.
      * intros _. now exists d.
      * intros other. now destruct other.
    + apply negb_true_iff in checked.
      split; split; trivial; try discriminate.
      * now intros (d' & [=] & _).
      * rewrite checked. discriminate.
      * intros _. rewrite checked. discriminate.
  - intros d Hd class.
    pose proof documented_classes_checked as checked.
    rewrite forallb_forall in checked. specialize (checked d Hd).
    cbv beta in checked. rewrite class in checked. cbn [implb] in checked.
    apply Bool.eqb_prop in checked.
    now rewrite <- two, <- checked, named_in_In.
Qed.

Lemma documented_exceptions_and_declared_classes_witness :
  In "TokenizationError" documented_exceptions /\
  (find_decl "TokenizationError" = None <->
   ~ ("TokenizationError" = "InvalidFieldNameError" \/
      "TokenizationError" = "ScriptLoaderError")).
Proof.
  assert (He : In "TokenizationError" documented_exceptions)
    by (apply named_in_In; vm_compute; reflexivity).
  split; [ exact He | ].
  exact (proj2 (proj1 (proj2 documented_exceptions_and_declared_classes)
                  "TokenizationError" He)).
Defined.

(* ================================================================== *)
(** * Properties of the payment request data *)
(* ================================================================== *)

Lemma property_inv d n o t :
  property d n = Some (o, t) ->
  exists ro, In (Property n o ro t) (members_of extends_depth d).
Proof.
  unfold property.
  destruct (find _ (members_of extends_depth d)) as [m | ] eqn:found;
    [ | discriminate ].
  apply find_some in found as [Hm same].
  destruct m as [n' o' ro t' | | | ]; try discriminate.
  apply String.eqb_eq in same. intros [= <- <-]. subst. now exists ro.
Qed.

(** X11: what an update may change.  Every property of a
    [PaymentRequestUpdate] is optional, and apart from [error] and
    [shippingErrors] each is a property of [PaymentRequestOptions] with the
    same type: the total, the shipping options and the four lists of line
    items.  The options have five properties that no update carries:
    [countryCode], [currencyCode], [requestBillingContact],
    [requestShippingContact] and [shippingContact]. *)
Theorem updates_share_the_types_of_the_options :
  (forall n o t, property PaymentRequestUpdate n = Some (o, t) ->
     o = true /\
     (n = "error" \/ n = "shippingErrors" \/
      exists o', property PaymentRequestOptions n = Some (o', t))) /\
  (forall n o t, property PaymentRequestOptions n = Some (o, t) ->
     (property PaymentRequestUpdate n = None <->
      In n [ "countryCode"; "currencyCode"; "requestBillingContact";
             "requestShippingContact"; "shippingContact" ])).
Proof.
  split.
  - intros n o t given. apply property_inv in given as [ro Hm].
    vm_compute in Hm.
    repeat (destruct Hm as [[= <- <- <- <-] | Hm];
            [ split; [ reflexivity | ];
              first [ left; reflexivity
                    | right; left; reflexivity
                    | right; right; eexists; vm_compute; reflexivity ]
            | ]).
    contradiction.
  - intros n o t given. apply property_inv in given as [ro Hm].
    vm_compute in Hm.
    repeat (destruct Hm as [[= <- <- <- <-] | Hm];
            [ first
                [ split; [ intros _; vm_compute; tauto | reflexivity ]
                | split;
                  [ discriminate
                  | let H := fresh in
                    intros H; vm_compute in H;
                    repeat (destruct H as [H | H]; [ discriminate H | ]);
                    contradiction ] ]
            | ]).
    contradiction.
Qed.

Lemma updates_share_the_types_of_the_options_witness :
  property PaymentRequestUpdate "total" = Some (true, TRef "LineItem") /\
  (true = true /\
   ("total" = "error" \/ "total" = "shippingErrors" \/
    exists o', property PaymentRequestOptions "total"
               = Some (o', TRef "LineItem"))).
Proof.
  split; [ reflexivity | ].
  exact (proj1 updates_share_the_types_of_the_options "total" true
           (TRef "LineItem") eq_refl).
Defined.

(* ================================================================== *)
(** * Properties of typed values *)
(* ================================================================== *)

Lemma partial_member check props m :
  member_conforms check false props m = true ->
  member_conforms check true props m = true.
Proof.
  destruct m as [n o ro t | | | ]; trivial.
  unfold member_conforms. destruct (get n props); trivial.
  intros _. apply orb_true_r.
Qed.

Lemma partial_conforms n d k v :
  find_decl n = Some d -> is_interface d = true ->
  conforms (S k) v (TRef n) = true ->
  conforms (S k) v (TPartial (TRef n)) = true.
Proof.
  intros found iface typed.
  rewrite conforms_S in typed |- *. unfold conforms_layer, TPartial in typed |- *.
  change ("Partial" =? "Partial") with true. cbv iota.
  rewrite found in typed |- *.
  destruct d; try discriminate. unfold object_conforms in typed |- *.
  destruct v; try discriminate.
  rewrite forallb_forall in typed |- *.
  intros m Hm. now apply partial_member, typed.
Qed.

Lemma update_declared :
  method PaymentRequest "update"
  = Some (mkSig "update" [arg "options" (TPartial (TRef "PaymentRequestOptions"))]
            TBoolean [mkThrows "InvalidPaymentRequestError" ""]).
Proof. reflexivity. Qed.

(** X13: [update] takes what [paymentRequest] takes, and more.  A value
    that has the type of an interface has the type [Partial] of it; so
    every options object that [Payments.paymentRequest] accepts is accepted
    by [PaymentRequest.update]; and [update] accepts the empty object,
    which [paymentRequest] does not: it lacks the required [countryCode],
    [currencyCode] and [total]. *)
Theorem update_accepts_what_paymentRequest_accepts :
  (forall n d k v, find_decl n = Some d -> is_interface d = true ->
     conforms (S k) v (TRef n) = true ->
     conforms (S k) v (TPartial (TRef n)) = true) /\
  (forall s v, method PaymentRequest "update" = Some s ->
     accepts paymentRequest_signature [v] = true -> accepts s [v] = true) /\
  (forall s, method PaymentRequest "update" = Some s ->
     accepts s [JObj []] = true /\
     accepts paymentRequest_signature [JObj []] = false /\
     accepts s [] = false).
Proof.
  split; [ exact partial_conforms | split ].
  - intros s v declared accepted.
    rewrite update_declared in declared. injection declared as <-.
    unfold accepts, paymentRequest_signature in accepted |- *.
    cbn [s_params arguments_conform arg p_type] in accepted |- *.
    rewrite andb_true_r in accepted |- *.
    now apply (partial_conforms _ PaymentRequestOptions).
  - intros s declared.
    rewrite update_declared in declared. injection declared as <-.
    repeat split.
Qed.

Lemma update_accepts_what_paymentRequest_accepts_witness :
  accepts paymentRequest_signature [js_options cat_and_dog] = true /\
  accepts (mkSig "update"
             [arg "options" (TPartial (TRef "PaymentRequestOptions"))]
             TBoolean [mkThrows "InvalidPaymentRequestError" ""])
          [js_options cat_and_dog] = true.
Proof.
  assert (accepted : accepts paymentRequest_signature [js_options cat_and_dog]
                     = true) by (vm_compute; reflexivity).
  split; [ exact accepted | ].
  exact (proj1 (proj2 update_accepts_what_paymentRequest_accepts) _ _
           update_declared accepted).
Defined.

(** ** The details of a buyer verification *)

Lemma literal_conforms_inv k v s :
  conforms k v (TLiteral s) = true -> v = JStr s.
Proof.
  destruct k; [ discriminate | ].
  destruct v; try discriminate.
  cbn [conforms conforms_layer]. intros same.
  apply String.eqb_eq in same. now subst.
Qed.

Lemma charge_intent k v :
  conforms k v (TRef "ChargeVerifyBuyerDetails") = true ->
  field "intent" v = JStr "CHARGE" /\
  (exists a, field "amount" v = JStr a) /\
  (exists c, field "currencyCode" v = JStr c) /\
  has "billingContact" v = true.
Proof.
  destruct k; [ discriminate | ]. intros typed.
  apply (interface_conforms_inv _ _ ChargeVerifyBuyerDetails) in typed
    as (props & -> & members); [ | reflexivity | reflexivity ].
  assert (listed : members_of extends_depth ChargeVerifyBuyerDetails
                   = [ ro "currencyCode" TString; ro "amount" TString;
                       ro "intent" (TLiteral "CHARGE");
                       ro "billingContact" (TRef "BillingContact") ])
    by reflexivity.
  rewrite listed in members. cbn [field has].
  destruct (member_conforms_inv _ _ _ _ _ _
              (members _ (or_introl eq_refl)))
    as [[_ [=]] | [_ currency]].
  destruct (member_conforms_inv _ _ _ _ _ _
              (members _ (or_intror (or_introl eq_refl))))
    as [[_ [=]] | [_ amount]].
  destruct (member_conforms_inv _ _ _ _ _ _
              (members _ (or_intror (or_intror (or_introl eq_refl)))))
    as [[_ [=]] | [_ intent]].
  destruct (member_conforms_inv _ _ _ _ _ _
              (members _ (or_intror (or_intror (or_intror (or_introl eq_refl))))))
    as [[_ [=]] | [contact _]].
  split; [ now apply literal_conforms_inv in intent | ].
  destruct k; [ discriminate | ].
  split; [ | split ].
  - apply string_conforms_inv in amount as [a ->]. now exists a.
  - apply string_conforms_inv in currency as [c ->]. now exists c.
  - now destruct (get "billingContact" props).
Qed.

Lemma store_intent k v :
  conforms k v (TRef "StoreVerifyBuyerDetails") = true ->
  field "intent" v = JStr "STORE" /\ has "billingContact" v = true.
Proof.
  destruct k; [ discriminate | ]. intros typed.
  apply (interface_conforms_inv _ _ StoreVerifyBuyerDetails) in typed
    as (props & -> & members); [ | reflexivity | reflexivity ].
  assert (listed : members_of extends_depth StoreVerifyBuyerDetails
                   = [ ro "intent" (TLiteral "STORE");
                       ro "billingContact" (TRef "BillingContact") ])
    by reflexivity.
  rewrite listed in members. cbn [field has].
  destruct (member_conforms_inv _ _ _ _ _ _
              (members _ (or_introl eq_refl)))
    as [[_ [=]] | [_ intent]].
  destruct (member_conforms_inv _ _ _ _ _ _
              (members _ (or_intror (or_introl eq_refl))))
    as [[_ [=]] | [contact _]].
  split; [ now apply literal_conforms_inv in intent | ].
  now destruct (get "billingContact" props).
Qed.

Lemma verifyBuyer_declared :
  exists s, method Payments "verifyBuyer" = Some s /\
            s_params s
            = [ arg "source" TString;
                arg "details" (TUnion [ TRef "ChargeVerifyBuyerDetails";
                                        TRef "StoreVerifyBuyerDetails" ]) ].
Proof. eexists. split; reflexivity. Qed.

(** X14: the details of a buyer verification are told apart by their
    [intent].  The details of a charge carry the intent 'CHARGE' with an
    amount, a currency code and a billing contact; the details of a store
    carry the intent 'STORE' with a billing contact; no value is both.  So
    [verifyBuyer] accepts a source and details only if the source is a string
    and the details carry one of the two intents and a billing contact. *)
Theorem verify_buyer_details_are_told_apart :
  (forall k v, conforms k v (TRef "ChargeVerifyBuyerDetails") = true ->
     field "intent" v = JStr "CHARGE" /\
     (exists a, field "amount" v = JStr a) /\
     (exists c, field "currencyCode" v = JStr c) /\
     has "billingContact" v = true) /\
  (forall k v, conforms k v (TRef "StoreVerifyBuyerDetails") = true ->
     field "intent" v = JStr "STORE" /\ has "billingContact" v = true) /\
  (forall k k' v, conforms k v (TRef "ChargeVerifyBuyerDetails") = true ->
     conforms k' v (TRef "StoreVerifyBuyerDetails") = false) /\
  (forall s source details, method Payments "verifyBuyer" = Some s ->
     accepts s [source; details] = true ->
     (exists text, source = JStr text) /\
     (field "intent" details = JStr "CHARGE" \/
      field "intent" details = JStr "STORE") /\
     has "billingContact" details = true).
Proof.
  split; [ exact charge_intent | split; [ exact store_intent | split ] ].
  - intros k k' v charge.
    destruct (conforms k' v (TRef "StoreVerifyBuyerDetails")) eqn:store;
      [ | reflexivity ].
    apply charge_intent in charge as [charge _].
    apply store_intent in store as [store _].
    rewrite charge in store. discriminate.
  - intros s source details declared accepted.
    destruct verifyBuyer_declared as (s' & declared' & params).
    rewrite declared' in declared. injection declared as <-.
    unfold accepts in accepted. rewrite params in accepted.
    cbn [arguments_conform arg p_type] in accepted.
    rewrite andb_true_r in accepted.
    apply andb_true_iff in accepted as [text either].
    split; [ now apply string_conforms_inv in text | ].
    unfold typing_depth in either. rewrite conforms_S in either.
    cbn [conforms_layer existsb] in either. rewrite orb_false_r in either.
    apply orb_true_iff in either as [charge | store].
    + apply charge_intent in charge as (intent & _ & _ & contact). auto.
    + apply store_intent in store as (intent & contact). auto.
Qed.

Lemma verify_buyer_details_are_told_apart_witness :
  conforms 4 (JObj [ ("intent", JStr "STORE");
                     ("billingContact", JObj [("city", JStr "Leeds")]) ])
           (TRef "StoreVerifyBuyerDetails") = true /\
  field "intent" (JObj [ ("intent", JStr "STORE");
                         ("billingContact", JObj [("city", JStr "Leeds")]) ])
  = JStr "STORE".
Proof.
  assert (typed : conforms 4 (JObj [ ("intent", JStr "STORE");
                                     ("billingContact",
                                      JObj [("city", JStr "Leeds")]) ])
                    (TRef "StoreVerifyBuyerDetails") = true)
    by (vm_compute; reflexivity).
  split; [ exact typed | ].
  exact (proj1 (proj1 (proj2 verify_buyer_details_are_told_apart) 4 _ typed)).
Defined.

(** ** Enums and the aliases of their values *)

Lemma enum_value_iff values v :
  enum_value values v = true <-> exists s, v = JStr s /\ In s (map snd values).
Proof.
  split.
  - destruct v; try discriminate. cbn [enum_value]. intros listed.
    apply existsb_exists in listed as ([key value] & Hm & same).
    apply String.eqb_eq in same. cbn [snd] in same. subst.
    exists s. split; [ reflexivity | ].
    apply in_map_iff. now exists (key, s).
  - intros (s & -> & Hs). cbn [enum_value].
    apply in_map_iff in Hs as ([key value] & <- & Hm).
    apply existsb_exists. exists (key, value).
    split; [ exact Hm | apply String.eqb_refl ].
Qed.

Lemma template_alias_conforms a e amb name vs k v :
  find_decl a = Some (TypeAlias a (TTemplate e)) ->
  find_decl e = Some (Enum amb name vs) ->
  (conforms (S (S k)) v (TRef a) = true <->
   exists s, v = JStr s /\ In s (map snd vs)).
Proof.
  intros alias enum.
  rewrite conforms_S. unfold conforms_layer at 1. rewrite alias.
  rewrite conforms_S. unfold conforms_layer. rewrite enum.
  apply enum_value_iff.
Qed.

Lemma template_aliases_checked :
  forallb (fun d => match d with
                    | TypeAlias _ (TTemplate e) =>
                        match find_decl e with
                        | Some (Enum amb name vs) =>
                            amb && (name =? e) &&
                            distinct (map snd vs) && distinct (map fst vs)
                        | _ => false
                        end
                    | Enum _ _ vs =>
                        distinct (map snd vs) && distinct (map fst vs)
                    | _ => true
                    end) declarations = true.
Proof. vm_compute. reflexivity. Qed.

(** X15: the aliases of enum values.  Each alias that the source writes as
    a template of an enum (as [CurrencyCodeValue] is of [CurrencyCode])
    names an enum the source declares; the members of the enum have
    pairwise different names and pairwise different values; and a value
    has the type of the alias exactly when it is the string value of one
    of the members. *)
Theorem template_aliases_are_the_enum_values :
  forall a e, In (TypeAlias a (TTemplate e)) declarations ->
    exists vs,
      find_decl e = Some (Enum true e vs) /\
      distinct (map fst vs) = true /\ distinct (map snd vs) = true /\
      forall k v, conforms (S (S k)) v (TRef a) = true <->
                  exists s, v = JStr s /\ In s (map snd vs).
Proof.
  intros a e Hd.
  pose proof template_aliases_checked as checked.
  rewrite forallb_forall in checked. specialize (checked _ Hd).
  cbv beta iota in checked.
  destruct (find_decl e) as [[ | | amb name vs | | | ] | ] eqn:enum;
    try discriminate.
  apply andb_true_iff in checked as [checked names].
  apply andb_true_iff in checked as [checked values].
  apply andb_true_iff in checked as [ambient same].
  apply String.eqb_eq in same. subst.
  exists vs. repeat split; trivial.
  - apply (template_alias_conforms a e true e vs); [ | exact enum ].
    exact (declared_is_found _ Hd).
  - apply (template_alias_conforms a e true e vs); [ | exact enum ].
    exact (declared_is_found _ Hd).
Qed.

Lemma template_aliases_are_the_enum_values_witness :
  In (TypeAlias "CurrencyCodeValue" (TTemplate "CurrencyCode")) declarations /\
  exists vs,
    find_decl "CurrencyCode" = Some (Enum true "CurrencyCode" vs) /\
    distinct (map fst vs) = true /\ distinct (map snd vs) = true /\
    forall k v, conforms (S (S k)) v (TRef "CurrencyCodeValue") = true <->
                exists s, v = JStr s /\ In s (map snd vs).
Proof.
  assert (Hd : In (TypeAlias "CurrencyCodeValue" (TTemplate "CurrencyCode"))
                  declarations) by (vm_compute; tauto).
  split; [ exact Hd | ].
  exact (template_aliases_are_the_enum_values _ _ Hd).
Defined.

Lemma request_listener_declared :
  method PaymentRequest "addEventListener"
  = Some (mkSig "addEventListener"
            [ arg "event" (TRef "PaymentRequestEventValue");
              arg "callback" (TRef "PaymentRequestCallback") ] TVoid []).
Proof. reflexivity. Qed.

(** X16: the listeners of a payment request.  [addEventListener] of a
    [PaymentRequest] accepts an event and a callback only if the event is
    one of the two values of [PaymentRequestEvent],
    'shippingcontactchanged' or 'shippingoptionchanged', and the callback is
    a function: any other event name is refused with whatever callback, and
    so is a callback that is no function.  (What the function takes and
    returns is not part of the data model: see [JsValue].) *)
Theorem payment_request_listens_to_two_events :
  forall s event callback,
    method PaymentRequest "addEventListener" = Some s ->
    accepts s [event; callback] = true ->
    (event = JStr "shippingcontactchanged" \/
     event = JStr "shippingoptionchanged") /\ callback = JFun.
Proof.
  intros s event callback declared.
  rewrite request_listener_declared in declared. injection declared as <-.
  unfold accepts. cbn [s_params arguments_conform arg p_type].
  rewrite andb_true_r, andb_true_iff.
  intros [named function].
  split; [ | now destruct callback ].
  unfold typing_depth in named.
  apply (template_alias_conforms "PaymentRequestEventValue"
           "PaymentRequestEvent" true "PaymentRequestEvent"
           [ ("SHIPPING_CONTACT_CHANGED", "shippingcontactchanged");
             ("SHIPPING_OPTION_CHANGED", "shippingoptionchanged") ])
    in named as (name & -> & [<- | [<- | []]]); auto.
Qed.

Lemma payment_request_listens_to_two_events_witness :
  accepts (mkSig "addEventListener"
             [ arg "event" (TRef "PaymentRequestEventValue");
               arg "callback" (TRef "PaymentRequestCallback") ] TVoid [])
          [JStr "shippingoptionchanged"; JFun] = true /\
  ((JStr "shippingoptionchanged" = JStr "shippingcontactchanged" \/
    JStr "shippingoptionchanged" = JStr "shippingoptionchanged") /\
   JFun = JFun).
Proof.
  assert (accepted :
            accepts (mkSig "addEventListener"
                       [ arg "event" (TRef "PaymentRequestEventValue");
                         arg "callback" (TRef "PaymentRequestCallback") ]
                       TVoid [])
                    [JStr "shippingoptionchanged"; JFun] = true)
    by reflexivity.
  split; [ exact accepted | ].
  exact (payment_request_listens_to_two_events _ _ _ request_listener_declared
           accepted).
Defined.

(** ** The arguments of [tokenize] *)

Lemma ach_options_conform v :
  conforms typing_depth v (TRef "AchTokenOptions") = true <->
  exists props name, v = JObj props /\ get "accountHolderName" props = JStr name.
Proof.
  unfold typing_depth. split.
  - intros typed.
    apply (interface_conforms_inv _ _ AchTokenOptions) in typed
      as (props & -> & members); [ | reflexivity | reflexivity ].
    assert (listed : members_of extends_depth AchTokenOptions
                     = [ req "accountHolderName" TString ]) by reflexivity.
    rewrite listed in members.
    destruct (member_conforms_inv _ _ _ _ _ _ (members _ (or_introl eq_refl)))
      as [[_ [=]] | [_ name]].
    apply string_conforms_inv in name as [name given].
    now exists props, name.
  - intros (props & name & -> & given).
    rewrite (interface_conforms _ _ AchTokenOptions) by reflexivity.
    change (members_of extends_depth AchTokenOptions)
      with [ req "accountHolderName" TString ].
    cbn [forallb]. rewrite andb_true_r.
    apply required_conforms; now rewrite given.
Qed.

(** X17: the arguments of [tokenize].  The [tokenize] of every payment
    method but [ACH] is called without an argument and accepts none; the
    [tokenize] of an [ACH] cannot be called without its options, and
    accepts exactly an object whose [accountHolderName] is a string. *)
Theorem only_ach_tokenize_takes_options :
  forall d s, In d payment_methods -> method d "tokenize" = Some s ->
    (accepts s [] = true <-> decl_name d <> "ACH") /\
    (forall v, accepts s [v] = true <->
               decl_name d = "ACH" /\
               exists props name,
                 v = JObj props /\ get "accountHolderName" props = JStr name).
Proof.
  intros d s Hd declared.
  rewrite payment_methods_listed in Hd. simpl in Hd.
  destruct Hd as [<- | [<- | [<- | [<- | [<- | []]]]]];
    vm_compute in declared; injection declared as <-.
  1, 2, 3, 5:
    split;
    [ split; [ discriminate | reflexivity ]
    | intros v; split; [ discriminate | intros [[=] _] ] ].
  split.
  - split; [ discriminate | intros other; now destruct other ].
  - intros v. unfold accepts.
    change (arguments_conform
              (s_params
                 {| s_name := _; s_params := _; s_returns := _; s_throws := _ |})
              [v])
      with (conforms typing_depth v (TRef "AchTokenOptions") && true).
    rewrite andb_true_r, ach_options_conform.
    split; [ now split | now intros [_ given] ].
Qed.

Lemma only_ach_tokenize_takes_options_witness :
  In ACH payment_methods /\
  accepts ach_tokenize [JObj [("accountHolderName", JStr "Ada Lovelace")]]
  = true.
Proof.
  assert (Hd : In ACH payment_methods) by (vm_compute; tauto).
  split; [ exact Hd | ].
  apply (proj2 (only_ach_tokenize_takes_options ACH ach_tokenize Hd eq_refl)).
  split; [ reflexivity | ].
  now exists [("accountHolderName", JStr "Ada Lovelace")], "Ada Lovelace".
Defined.

(** ** The empty object *)

Lemma empty_member check m :
  member_conforms check false [] m = is_optional m.
Proof.
  destruct m as [n o ro t | | | ]; try reflexivity.
  cbn [member_conforms get is_optional]. apply orb_false_r.
Qed.

(** X18: the empty object.  [{}] has the type of an interface of the
    source exactly when every member of the interface, own or inherited, is
    an optional property.  That holds of six interfaces:
    [SushiPayButtonOptions], [Contact], [ShippingContact], [ShippingErrors],
    [PaymentRequestUpdate] and [ShippingDetails]. *)
Theorem empty_object_is_typed_by_optional_members :
  (forall d k, In d declarations -> is_interface d = true ->
     conforms (S k) (JObj []) (TRef (decl_name d))
     = forallb is_optional (members_of extends_depth d)) /\
  map decl_name
    (filter (fun d => is_interface d &&
                      forallb is_optional (members_of extends_depth d))
            declarations)
  = [ "SushiPayButtonOptions"; "Contact"; "ShippingContact"; "ShippingErrors";
      "PaymentRequestUpdate"; "ShippingDetails" ].
Proof.
  split; [ | reflexivity ].
  intros d k Hd iface.
  rewrite (interface_conforms k _ d [] (declared_is_found d Hd) iface).
  induction (members_of extends_depth d) as [ | m ms IH]; [ reflexivity | ].
  cbn [forallb]. now rewrite empty_member, IH.
Qed.

Lemma empty_object_is_typed_by_optional_members_witness :
  In ShippingErrors declarations /\
  conforms 1 (JObj []) (TRef "ShippingErrors") = true.
Proof.
  assert (Hd : In ShippingErrors declarations) by (vm_compute; tauto).
  split; [ exact Hd | ].
  exact (proj1 empty_object_is_typed_by_optional_members ShippingErrors 0 Hd
           eq_refl).
Defined.

(** ** The bound on the nesting of types *)

Lemma member_conforms_mono (check check' : JsValue -> Ty -> bool) partial props m :
  (forall v t, check v t = true -> check' v t = true) ->
  member_conforms check partial props m = true ->
  member_conforms check' partial props m = true.
Proof.
  intros weaker. destruct m as [n o ro t | | | ]; trivial.
  unfold member_conforms. destruct (get n props); trivial; apply weaker.
Qed.

Lemma object_conforms_mono (check check' : JsValue -> Ty -> bool) partial d v :
  (forall v t, check v t = true -> check' v t = true) ->
  object_conforms check partial d v = true ->
  object_conforms check' partial d v = true.
Proof.
  intros weaker. unfold object_conforms.
  destruct d; trivial. destruct v; trivial.
  rewrite !forallb_forall. intros all m Hm.
  apply (member_conforms_mono check); [ exact weaker | now apply all ].
Qed.

Lemma conforms_layer_mono (check check' : JsValue -> Ty -> bool) v t :
  (forall v t, check v t = true -> check' v t = true) ->
  conforms_layer check v t = true -> conforms_layer check' v t = true.
Proof.
  intros weaker.
  destruct t as [ | | | | | | s | n | n args | e | alts | e | ps r | fs ];
    cbn [conforms_layer]; trivial.
  - destruct (find_decl n) as [[ | | | | | ] | ]; trivial;
      try apply object_conforms_mono; try apply weaker; exact weaker.
  - destruct args as [ | [ | | | | | | | r | | | | | | ] [ | ] ]; trivial.
    destruct (n =? "Partial"); trivial.
    destruct (find_decl r); trivial.
    now apply object_conforms_mono.
  - destruct v; trivial. rewrite !forallb_forall.
    intros all x Hx. now apply weaker, all.
  - rewrite !existsb_exists. intros (alt & Halt & typed).
    exists alt. split; [ exact Halt | now apply weaker ].
  - destruct v; trivial. rewrite !forallb_forall.
    intros all f Hf. specialize (all f Hf). unfold record_conforms in all |- *.
    destruct (get (fst f) props); trivial; now apply weaker.
Qed.

(** The bound on the nesting of types only cuts off: a value that has a
    type within one bound has it within every larger bound, so a typing
    established at some depth is never lost at the depth [typing_depth] at
    which arguments are checked. *)
Lemma conforms_is_monotone_in_the_depth :
  forall k k' v t, (k <= k')%nat ->
    conforms k v t = true -> conforms k' v t = true.
Proof.
  assert (step : forall k v t, conforms k v t = true -> conforms (S k) v t = true).
  { induction k as [ | k IH]; intros v t typed; [ discriminate | ].
    rewrite conforms_S in typed |- *.
    now apply (conforms_layer_mono (conforms k)). }
  intros k k' v t bound typed.
  induction bound as [ | k' bound IH]; [ exact typed | now apply step ].
Qed.

(** ** What the source leaves out *)

Lemma outside_checked :
  forallb (fun m =>
             forallb (fun n =>
                        Bool.eqb (match find_decl n with
                                  | Some _ => false
                                  | None => true
                                  end)
                                 (named_in n
                                    [ "ERCPayButtonOptions";
                                      "CardFieldNamesValues";
                                      "CardInputEventTypesValues";
                                      "CardInputEvent"; "CardOptions";
                                      "SqError"; "CashApp";
                                      "DigitalWalletOptions";
                                      "GiftCardOptions"; "GooglePay";
                                      "GiftCardFieldNamesValues";
                                      "GiftCardInputEventTypesValues";
                                      "GiftCardInputEvent"; "CardDetails";
                                      "GiftCardDetails" ]))
                     (imported_names m))
          source_modules = true.
Proof. vm_compute. reflexivity. Qed.

(** X19: what the source leaves out.  Fifteen of the names that its
    modules import are declared by no module of the source: the options,
    field names and input events of [Card] and [GiftCard], the details of
    their tokens, [GooglePay], [CashApp] with its [DigitalWalletOptions],
    the base class [SqError], and [ERCPayButtonOptions], the options of
    [ERCPay.attach].  Every other imported name is declared in the
    source. *)
Theorem imports_outside_the_source :
  forall m n, In m source_modules -> In n (imported_names m) ->
    (find_decl n = None <->
     In n [ "ERCPayButtonOptions"; "CardFieldNamesValues";
            "CardInputEventTypesValues"; "CardInputEvent"; "CardOptions";
            "SqError"; "CashApp"; "DigitalWalletOptions"; "GiftCardOptions";
            "GooglePay"; "GiftCardFieldNamesValues";
            "GiftCardInputEventTypesValues"; "GiftCardInputEvent";
            "CardDetails"; "GiftCardDetails" ]).
Proof.
  intros m n Hm Hn.
  pose proof outside_checked as checked.
  rewrite forallb_forall in checked. specialize (checked m Hm).
  cbv beta in checked.
  rewrite forallb_forall in checked. specialize (checked n Hn).
  cbv beta in checked. apply Bool.eqb_prop in checked.
  rewrite <- named_in_In, <- checked.
  destruct (find_decl n); split; trivial; discriminate.
Qed.

Lemma imports_outside_the_source_witness :
  In erc_pay_method source_modules /\
  In "ERCPayButtonOptions" (imported_names erc_pay_method) /\
  find_decl "ERCPayButtonOptions" = None.
Proof.
  assert (Hm : In erc_pay_method source_modules) by (vm_compute; tauto).
  assert (Hn : In "ERCPayButtonOptions" (imported_names erc_pay_method))
    by (simpl; auto).
  split; [ exact Hm | split; [ exact Hn | ] ].
  apply (imports_outside_the_source erc_pay_method _ Hm Hn).
  simpl. auto.
Defined.

(** ** Token results *)

Lemma array_elements_conform k v e :
  conforms (S k) v (TArray e) = true ->
  exists items, v = JArr items /\
                forall x, In x items -> conforms k x e = true.
Proof.
  destruct v; try discriminate.
  rewrite conforms_S. cbn [conforms_layer]. intros all.
  exists items. split; [ reflexivity | ].
  now rewrite forallb_forall in all.
Qed.

(** X20: the declared [TokenResult].  A [TokenResult] carries a status,
    one of the six values of [TokenStatus]; its token, when present, is a
    string, and its errors, when present, are an array of [TokenError]s.
    The token and the errors are optional whatever the status: with each of
    the six statuses, with or without a token and with or without errors,
    the object has the type [TokenResult]; without a status it has not. *)
Theorem token_result_is_typed_whatever_the_status :
  (forall v, well_typed v "TokenResult" = true ->
     (exists s, field "status" v = JStr s /\
                In s (enum_values Surface.TokenStatus)) /\
     (has "token" v = true -> exists t, field "token" v = JStr t) /\
     (has "errors" v = true ->
      exists es, field "errors" v = JArr es /\
                 forall e, In e es -> well_typed e "TokenError" = true)) /\
  (forall status errors token,
     well_typed (js_token_result status errors token) "TokenResult" = true /\
     field "status" (js_token_result status errors token)
       = JStr (TokenStatus.text status) /\
     has "token" (js_token_result status errors token)
       = match token with Some _ => true | None => false end /\
     has "errors" (js_token_result status errors token)
       = match errors with Some _ => true | None => false end) /\
  (forall s, In s (enum_values Surface.TokenStatus) <->
             exists status, s = TokenStatus.text status) /\
  (forall errors token,
     well_typed (JObj [ ("errors", optional (array js_token_error) errors);
                        ("token", optional JStr token) ]) "TokenResult"
     = false).
Proof.
  split; [ | split; [ | split ] ].
  - intros v typed.
    unfold well_typed, typing_depth in typed.
    apply (interface_conforms_inv _ _ TokenResult) in typed
      as (props & -> & members); [ | reflexivity | reflexivity ].
    change (members_of extends_depth TokenResult)
      with (own_members TokenResult) in members.
    cbn [own_members TokenResult opt req] in members.
    split; [ | split ].
    + destruct (member_conforms_inv _ _ _ _ _ _
                  (members _ (or_introl eq_refl)))
        as [[_ impossible] | [_ typed]]; [ discriminate | ].
      apply (enum_conforms_inv _ _ true "TokenStatus"
               [ ("UNKNOWN", "Unknown"); ("OK", "OK"); ("ERROR", "Error");
                 ("INVALID", "Invalid"); ("ABORT", "Abort");
                 ("CANCEL", "Cancel") ]) in typed; [ | reflexivity ].
      exact typed.
    + intros present. simpl in present. simpl field.
      destruct (member_conforms_inv _ _ _ _ _ _
                  (members _ (or_intror (or_intror (or_introl eq_refl)))))
        as [[absent _] | [_ typed]].
      * rewrite absent in present. discriminate.
      * now apply string_conforms_inv in typed.
    + intros present. simpl in present. simpl field.
      destruct (member_conforms_inv _ _ _ _ _ _
                  (members _ (or_intror (or_introl eq_refl))))
        as [[absent _] | [_ typed]].
      * rewrite absent in present. discriminate.
      * apply array_elements_conform in typed as (es & given & each).
        exists es. split; [ exact given | ].
        intros e He. unfold well_typed.
        apply (conforms_is_monotone_in_the_depth 6); [ | now apply each ].
        unfold typing_depth. lia.
  - intros status errors token.
    split; [ apply token_result_conforms | ].
    split; [ reflexivity | ].
    split; [ destruct token | destruct errors ]; reflexivity.
  - intros s. cbn [enum_values Surface.TokenStatus map snd In]. split.
    + intros [<- | [<- | [<- | [<- | [<- | [<- | []]]]]]];
        [ now exists TokenStatus.UNKNOWN | now exists TokenStatus.OK
        | now exists TokenStatus.ERROR | now exists TokenStatus.INVALID
        | now exists TokenStatus.ABORT | now exists TokenStatus.CANCEL ].
    + intros [[ | | | | | ] ->]; cbn [TokenStatus.text]; tauto.
  - intros errors token.
    unfold well_typed, typing_depth.
    rewrite (interface_conforms _ _ TokenResult) by reflexivity.
    reflexivity.
Qed.

Lemma token_result_is_typed_whatever_the_status_witness :
  well_typed (JObj [("status", JStr "OK")]) "TokenResult" = true /\
  exists s, field "status" (JObj [("status", JStr "OK")]) = JStr s /\
            In s (enum_values Surface.TokenStatus).
Proof.
  assert (typed : well_typed (JObj [("status", JStr "OK")]) "TokenResult" = true)
    by reflexivity.
  split; [ exact typed | ].
  exact (proj1 (proj1 token_result_is_typed_whatever_the_status _ typed)).
Defined.
